(** * GGIR sleep-diary converter: the calendar builder and the wide-row builder

    A shallow embedding of [convert_sleeplog.py] (and of the conversion guard
    of [app.py]) together with the properties stated for them.

    - A [pd.Timestamp] is a record of its civil fields; [strftime] and the
      subtraction of [timedelta(days=1)] are written over those fields.
    - The calendar is the Python [dict[str, dict[str, str]]]: a [gmap] from
      the date string to a [gmap] from the field name to the clock time.
    - [logger.warning] appends a record to an explicit log.
    - A raised exception is the [Raise] case of a result type. *)

From Stdlib Require Import ZArith Ascii.
From stdpp Require Import gmap strings list fin_maps sorting pretty.

(** ** Exceptions *)

Inductive Exn : Type :=
| NoUsableRows                (* raise ValueError("No usable rows in the uploaded CSV.") *)
| MaxEmptySequence            (* the ValueError of the builtin max() on an empty iterable *)
| KeyError (key : string)     (* calendar[cal_date] on a missing key *)
| ShapeMismatch.              (* the ValueError of pd.DataFrame(rows, columns=...) *)

Inductive Result (A : Type) : Type :=
| Ok (a : A)
| Raise (e : Exn).
Arguments Ok {A} a.
Arguments Raise {A} e.

Definition bind {A B} (r : Result A) (k : A → Result B) : Result B :=
  match r with
  | Ok a => k a
  | Raise e => Raise e
  end.

Notation "'let!' x ':=' r 'in' k" := (bind r (λ x, k))
  (at level 10, x name, r at level 100, k at level 200).
Notation "'let!' ' p ':=' r 'in' k" := (bind r (λ x, match x with p => k end))
  (at level 10, p strict pattern, r at level 100, k at level 200).

(** ** Timestamps

    A naive (zone-less) timestamp, read through the fields that [strftime]
    and [.hour] use. Timestamps are taken inside the range pandas represents,
    so that the day before one is a timestamp too. *)

Module Timestamp.

Record t : Type := make
  { year : nat; month : nat; day : nat; hour : nat; minute : nat; second : nat }.

Definition is_leap_year (y : nat) : bool :=
  (y mod 4 =? 0)%nat && (negb (y mod 100 =? 0)%nat || (y mod 400 =? 0)%nat).

Definition days_in_month (y m : nat) : nat :=
  match m with
  | 2 => if is_leap_year y then 29 else 28
  | 4 | 6 | 9 | 11 => 30
  | _ => 31
  end.

(** The fields denote a date of the proleptic Gregorian calendar and a
    clock time. *)
Definition valid (dt : t) : Prop :=
  1 ≤ year dt ∧ 1 ≤ month dt ≤ 12 ∧ 1 ≤ day dt ≤ days_in_month (year dt) (month dt)
  ∧ hour dt < 24 ∧ minute dt < 60 ∧ second dt < 60.

(** [dt - timedelta(days=1)]: the same clock time on the previous day. *)
Definition minus_one_day (dt : t) : t :=
  if (1 <? day dt)%nat then
    make (year dt) (month dt) (day dt - 1) (hour dt) (minute dt) (second dt)
  else if (1 <? month dt)%nat then
    make (year dt) (month dt - 1) (days_in_month (year dt) (month dt - 1))
         (hour dt) (minute dt) (second dt)
  else
    make (year dt - 1) 12 31 (hour dt) (minute dt) (second dt).

(** The day number of [datetime.date.toordinal]: 0001-01-01 is day 1. *)
Definition days_before_year (y : Z) : Z :=
  ((y - 1) * 365 + (y - 1) / 4 - (y - 1) / 100 + (y - 1) / 400)%Z.

Fixpoint days_before_month (y m : nat) : Z :=
  match m with
  | 0 => 0%Z
  | S m' => match m' with
            | 0 => 0%Z
            | _ => (days_before_month y m' + Z.of_nat (days_in_month y m'))%Z
            end
  end.

Definition toordinal (dt : t) : Z :=
  (days_before_year (Z.of_nat (year dt)) + days_before_month (year dt) (month dt)
   + Z.of_nat (day dt))%Z.

(** Zero-padded decimal fields of [strftime]. *)
Definition zero_pad (width n : nat) : string :=
  let digits := pretty n in
  String.concat "" (replicate (width - String.length digits) "0") +:+ digits.

(** [dt.strftime("%Y-%m-%d")] *)
Definition strftime_date (dt : t) : string :=
  zero_pad 4 (year dt) +:+ "-" +:+ zero_pad 2 (month dt) +:+ "-" +:+ zero_pad 2 (day dt).

(** [dt.strftime("%H:%M:%S")] *)
Definition strftime_time (dt : t) : string :=
  zero_pad 2 (hour dt) +:+ ":" +:+ zero_pad 2 (minute dt) +:+ ":" +:+ zero_pad 2 (second dt).

End Timestamp.

Abbreviation Timestamp := Timestamp.t.

(** ** Core helpers *)

(** [calendar_date_for_inbed(dt, noon_cutoff)] *)
Definition calendar_date_for_inbed (dt : Timestamp) (noon_cutoff : Z) : string :=
  if (Z.of_nat (Timestamp.hour dt) <? noon_cutoff)%Z
  then Timestamp.strftime_date (Timestamp.minus_one_day dt)
  else Timestamp.strftime_date dt.

(** [calendar_date_for_wakeup(dt)] *)
Definition calendar_date_for_wakeup (dt : Timestamp) : string :=
  Timestamp.strftime_date dt.

(** [fmt_time(dt)] *)
Definition fmt_time (dt : Timestamp) : string :=
  Timestamp.strftime_time dt.

(** ** Data frames, the calendar and the log *)

(** A cell of the source columns is a string or missing (NaN). *)
Record SourceRow : Type := mkSourceRow
  { SUBJECT : option string; Out_Bed : option string; In_Bed : option string }.

(** A row after the two [pd.to_datetime] columns were added; [None] is NaT. *)
Record Row : Type := mkRow
  { source : SourceRow; out_bed_dt : option Timestamp; in_bed_dt : option Timestamp }.

(** [dict[str, dict[str, str]]] *)
Abbreviation Entry := (gmap string string).
Abbreviation Calendar := (gmap string (gmap string string)).

(** What [logger.warning] records: the field and the calendar date of
    "Duplicate <field> for <date>". *)
Inductive LogRecord : Type :=
| Warning (field cal_date : string).

Record State : Type := mkState { calendar : Calendar; log : list LogRecord }.

(** [calendar.setdefault(key, default)]: the entry found, or [default] after
    storing it; the calendar is returned with it. *)
Definition setdefault (cal : Calendar) (key : string) (default : Entry) : Calendar * Entry :=
  match cal !! key with
  | Some entry => (cal, entry)
  | None => (<[key := default]> cal, default)
  end.

(** The body shared by "Place wakeup" and "Place inbed": the entry is the
    object held by the calendar, so the assignment to [entry[field]] is an
    update of the calendar at [cal_date]. *)
Definition place (field cal_date time : string) (st : State) : State :=
  let '(cal, entry) := setdefault (calendar st) cal_date ∅ in
  if decide (is_Some (entry !! field))
  then {| calendar := cal; log := log st ++ [Warning field cal_date] |}
  else {| calendar := <[cal_date := <[field := time]> entry]> cal; log := log st |}.

(** One iteration of [for _, row in df.iterrows()]. *)
Definition build_calendar_row (noon_cutoff : Z) (st : State) (row : Row) : State :=
  let st :=
    match out_bed_dt row with
    | Some out_dt => place "wakeup" (calendar_date_for_wakeup out_dt) (fmt_time out_dt) st
    | None => st
    end in
  match in_bed_dt row with
  | Some in_dt => place "inbed" (calendar_date_for_inbed in_dt noon_cutoff) (fmt_time in_dt) st
  | None => st
  end.

Definition build_calendar_from (noon_cutoff : Z) (st : State) (df : list Row) : State :=
  fold_left (build_calendar_row noon_cutoff) df st.

(** [build_calendar(df, noon_cutoff)] with the warnings it logged. *)
Definition build_calendar_run (df : list Row) (noon_cutoff : Z) : State :=
  build_calendar_from noon_cutoff {| calendar := ∅; log := [] |} df.

Definition build_calendar (df : list Row) (noon_cutoff : Z) : Calendar :=
  calendar (build_calendar_run df noon_cutoff).

(** ** One wide row *)

(** [sorted(calendar.keys())] *)
Definition sorted_keys (cal : Calendar) : list string :=
  merge_sort String.le (map_to_list cal).*1.

(** [if start_date: sorted_dates = [d for d in sorted_dates if d >= start_date]]:
    [None] and the empty string are falsy. *)
Definition filter_start (start_date : option string) (dates : list string) : list string :=
  match start_date with
  | Some s => if bool_decide (s = "") then dates else filter (λ d, String.le s d) dates
  | None => dates
  end.

Definition filter_end (end_date : option string) (dates : list string) : list string :=
  match end_date with
  | Some e => if bool_decide (e = "") then dates else filter (λ d, String.le d e) dates
  | None => dates
  end.

(** [for i, cal_date in enumerate(sorted_dates, start=1)]: the header and the
    values grow by three cells per date. *)
Fixpoint row_loop (cal : Calendar) (i : nat) (dates : list string)
    (header values : list string) : Result (list string * list string) :=
  match dates with
  | [] => Ok (header, values)
  | cal_date :: dates =>
      match cal !! cal_date with
      | None => Raise (KeyError cal_date)
      | Some entry =>
          row_loop cal (S i) dates
            (header ++ ["D" +:+ pretty i +:+ "_date"; "D" +:+ pretty i +:+ "_wakeup";
                        "D" +:+ pretty i +:+ "_inbed"])
            (values ++ [cal_date; default "" (entry !! "wakeup");
                        default "" (entry !! "inbed")])
      end
  end.

(** The dates a segment keeps, in row order. *)
Definition segment_dates (cal : Calendar) (start_date end_date : option string) : list string :=
  filter_end end_date (filter_start start_date (sorted_keys cal)).

(** [build_wide_row(segment_id, calendar, start_date, end_date)] *)
Definition build_wide_row (segment_id : string) (cal : Calendar)
    (start_date end_date : option string) : Result (list string * list string) :=
  let sorted_dates := sorted_keys cal in
  let sorted_dates := filter_start start_date sorted_dates in
  let sorted_dates := filter_end end_date sorted_dates in
  row_loop cal 1 sorted_dates ["ID"] [segment_id].

(** ** The table *)

(** A segment dict: ["id"], and ["start_date"], ["end_date"] read with [.get]. *)
Record Segment : Type := mkSegment
  { id : string; start_date : option string; end_date : option string }.

(** The result of [pd.DataFrame(rows, columns=longest_header)]. *)
Record DataFrame : Type := mkDataFrame
  { columns : list string; data : list (list string) }.

(** The first loop over the segments: every values list is appended to [rows]
    and [max_cols] follows the longest of them. *)
Fixpoint rows_loop (cal : Calendar) (segments : list Segment)
    (rows : list (list string)) (max_cols : nat) : Result (list (list string) * nat) :=
  match segments with
  | [] => Ok (rows, max_cols)
  | seg :: segments =>
      let! '(header, values) := build_wide_row (id seg) cal (start_date seg) (end_date seg) in
      rows_loop cal segments (rows ++ [values]) (Nat.max max_cols (length values))
  end.

(** [while len(row) < max_cols: row.append("")], by the number of iterations
    the loop makes. *)
Fixpoint append_blanks (n : nat) (row : list string) : list string :=
  match n with
  | 0 => row
  | S n => append_blanks n (row ++ [""])
  end.

Definition pad (max_cols : nat) (row : list string) : list string :=
  append_blanks (max_cols - length row) row.

(** The generator handed to [max]: the header of every segment, in order. *)
Fixpoint headers (cal : Calendar) (segments : list Segment) : Result (list (list string)) :=
  match segments with
  | [] => Ok []
  | s :: segments =>
      let! '(header, _) := build_wide_row (id s) cal (start_date s) (end_date s) in
      let! rest := headers cal segments in
      Ok (header :: rest)
  end.

(** [max(iterable, key=len)]: the first item of the greatest length; an empty
    iterable raises. *)
Fixpoint max_len_from (best : list string) (items : list (list string)) : list string :=
  match items with
  | [] => best
  | item :: items =>
      if (length best <? length item)%nat
      then max_len_from item items
      else max_len_from best items
  end.

Definition max_len (items : list (list string)) : Result (list string) :=
  match items with
  | [] => Raise MaxEmptySequence
  | item :: items => Ok (max_len_from item items)
  end.

(** [pd.DataFrame(rows, columns=...)] needs as many labels as the rows have
    cells. *)
Definition make_DataFrame (rows : list (list string)) (cols : list string) : Result DataFrame :=
  if forallb (λ row, (length row =? length cols)%nat) rows
  then Ok {| columns := cols; data := rows |}
  else Raise ShapeMismatch.

(** Table assembly: the part of [convert_sleeplog_in_memory] that follows
    [build_calendar]. *)
Definition assemble (segments : list Segment) (cal : Calendar) : Result DataFrame :=
  let! '(rows, max_cols) := rows_loop cal segments [] 0 in
  let rows := map (pad max_cols) rows in
  let! hs := headers cal segments in
  let! longest_header := max_len hs in
  let longest_header := pad max_cols longest_header in
  make_DataFrame rows longest_header.

(** [df.dropna(subset=["Out_Bed", "In_Bed"], how="all")] *)
Definition dropna (df : list SourceRow) : list SourceRow :=
  filter (λ r, ¬ (Out_Bed r = None ∧ In_Bed r = None)) df.

Section Conversion.

(** [pd.to_datetime(text, format=fmt, errors="coerce")] on one string: the
    timestamp, or NaT when the text does not parse. *)
Variable to_datetime : string → string → option Timestamp.

(** A missing cell stays missing. *)
Definition to_datetime_cell (cell : option string) (fmt : string) : option Timestamp :=
  match cell with
  | Some text => to_datetime fmt text
  | None => None
  end.

Definition add_datetime_columns (datetime_fmt : string) (df : list SourceRow) : list Row :=
  map (λ r, {| source := r;
               out_bed_dt := to_datetime_cell (Out_Bed r) datetime_fmt;
               in_bed_dt := to_datetime_cell (In_Bed r) datetime_fmt |}) df.

(** [convert_sleeplog_in_memory(df, segments, noon_cutoff, datetime_fmt)] *)
Definition convert_sleeplog_in_memory (df : list SourceRow) (segments : list Segment)
    (noon_cutoff : Z) (datetime_fmt : string) : Result DataFrame :=
  let df := dropna df in
  if bool_decide (df = []) then Raise NoUsableRows
  else
    let df := add_datetime_columns datetime_fmt df in
    let cal := build_calendar df noon_cutoff in
    assemble segments cal.

(** The "Convert" part of [app.py]: with no segment in the session the page
    shows a warning and offers no conversion; otherwise the button calls the
    conversion with the page's fixed settings. *)
Definition app_convert (source_df : list SourceRow) (session_segments : list Segment)
    : option (Result DataFrame) :=
  match session_segments with
  | [] => None
  | _ => Some (convert_sleeplog_in_memory source_df session_segments 12 "%m/%d/%y %H:%M")
  end.

End Conversion.

(** ** A parser for the default format

    [strptime] for ["%m/%d/%y %H:%M"], the format of the application: numeric
    fields of one or two digits, a two-digit year with the POSIX pivot, no
    seconds. It instantiates [to_datetime] in the worked examples. *)

Module Strptime.

Definition number (s : string) : option (nat * string) :=
  match s with
  | String c1 rest =>
      d1 ← Ascii.is_nat c1;
      match rest with
      | String c2 rest' =>
          match Ascii.is_nat c2 with
          | Some d2 => Some (10 * d1 + d2, rest')
          | None => Some (d1, rest)
          end
      | EmptyString => Some (d1, rest)
      end
  | EmptyString => None
  end.

Definition literal (c : Ascii.ascii) (s : string) : option string :=
  match s with
  | String c' rest => if decide (c = c') then Some rest else None
  | EmptyString => None
  end.

Definition mdy_hm (text : string) : option Timestamp :=
  '(m, s) ← number text; s ← literal "/"%char s;
  '(d, s) ← number s; s ← literal "/"%char s;
  '(y, s) ← number s; s ← literal " "%char s;
  '(h, s) ← number s; s ← literal ":"%char s;
  '(mi, s) ← number s;
  let y := if (y <? 69)%nat then 2000 + y else 1900 + y in
  if bool_decide (s = "" ∧ 1 ≤ m ≤ 12 ∧ 1 ≤ d ≤ Timestamp.days_in_month y m
                  ∧ h < 24 ∧ mi < 60)
  then Some (Timestamp.make y m d h mi 0)
  else None.

Definition to_datetime (fmt text : string) : option Timestamp :=
  if bool_decide (fmt = "%m/%d/%y %H:%M") then mdy_hm text else None.

End Strptime.

(** ** Reading the results *)

(** The clock time stored for a field of a calendar date, if any. *)
Definition get_field (cal : Calendar) (cal_date field : string) : option string :=
  cal !! cal_date ≫= (λ entry, entry !! field).

(** An episode assigns to a field of a date when it has the timestamp of
    that field and the timestamp is placed on that date. *)
Definition assigns (noon_cutoff : Z) (row : Row) (cal_date field : string) : Prop :=
  (field = "wakeup" ∧ ∃ dt, out_bed_dt row = Some dt ∧ calendar_date_for_wakeup dt = cal_date)
  ∨ (field = "inbed"
     ∧ ∃ dt, in_bed_dt row = Some dt ∧ calendar_date_for_inbed dt noon_cutoff = cal_date).

(** A bound applies when it is a non-empty string; a date is in range when it
    is on the right side of every bound that applies, bounds included. *)
Definition lower_ok (start_date : option string) (d : string) : Prop :=
  match start_date with
  | Some s => s = "" ∨ String.le s d
  | None => True
  end.

Definition upper_ok (end_date : option string) (d : string) : Prop :=
  match end_date with
  | Some e => e = "" ∨ String.le d e
  | None => True
  end.

Definition in_range (start_date end_date : option string) (d : string) : Prop :=
  lower_ok start_date d ∧ upper_ok end_date d.

#[global] Instance lower_ok_dec start_date d : Decision (lower_ok start_date d).
Proof. destruct start_date; simpl; apply _. Defined.

#[global] Instance upper_ok_dec end_date d : Decision (upper_ok end_date d).
Proof. destruct end_date; simpl; apply _. Defined.

#[global] Instance in_range_dec start_date end_date d :
  Decision (in_range start_date end_date d).
Proof. unfold in_range; apply _. Defined.

(** The three labels of the [i]-th date and the three cells of a date. *)
Definition date_header (i : nat) : list string :=
  ["D" +:+ pretty i +:+ "_date"; "D" +:+ pretty i +:+ "_wakeup"; "D" +:+ pretty i +:+ "_inbed"].

Definition date_values (cal : Calendar) (d : string) : list string :=
  [d; default "" (get_field cal d "wakeup"); default "" (get_field cal d "inbed")].

(** The row of a segment over the dates it keeps. *)
Definition header_of (n : nat) : list string :=
  "ID" :: flat_map date_header (seq 1 n).

Definition values_of (segment_id : string) (cal : Calendar) (dates : list string) : list string :=
  segment_id :: flat_map (date_values cal) dates.

(** The header and the values a segment contributes to the table. *)
Definition row_header (cal : Calendar) (seg : Segment) : list string :=
  header_of (length (segment_dates cal (start_date seg) (end_date seg))).

Definition row_values (cal : Calendar) (seg : Segment) : list string :=
  values_of (id seg) cal (segment_dates cal (start_date seg) (end_date seg)).

(** ** Worked data *)

(** A diary in the application's format: a bedtime after midnight, a second
    bedtime and a second wakeup on dates already filled, a row with no
    timestamp at all. *)
Definition diary : list SourceRow :=
  [ mkSourceRow (Some "AK/01") (Some "01/02/25 07:15") (Some "01/02/25 01:30");
    mkSourceRow (Some "AK/01") (Some "01/03/25 06:50") (Some "01/02/25 23:10");
    mkSourceRow (Some "AK/01") None None;
    mkSourceRow (Some "AK/01") (Some "01/05/25 08:00") (Some "01/05/25 13:30");
    mkSourceRow (Some "AK/01") (Some "01/02/25 09:00") (Some "01/02/25 00:45") ].

(** A diary whose cells hold text that is not a timestamp. *)
Definition unparsed_diary : list SourceRow :=
  [ mkSourceRow (Some "AK/01") (Some "not recorded") (Some "unknown") ].

Definition three_segments : list Segment :=
  [ mkSegment "a.GT3X" (Some "2025-01-02") (Some "2025-01-04");
    mkSegment "b.GT3X" None None;
    mkSegment "c.GT3X" (Some "2026-01-01") (Some "2026-01-31") ].

(** Two episodes whose bedtimes both belong to 2025-01-01: one after midnight
    on 2025-01-02, one in the evening of 2025-01-01. *)
Definition first_bedtime : Row :=
  mkRow (mkSourceRow (Some "AK/01") None (Some "01/02/25 01:30"))
        None (Some (Timestamp.make 2025 1 2 1 30 0)).

Definition second_bedtime : Row :=
  mkRow (mkSourceRow (Some "AK/01") None (Some "01/01/25 23:10"))
        None (Some (Timestamp.make 2025 1 1 23 10 0)).

(** ** Identifiers and file names *)

(** [s.replace(old, new)] for a one-character [old]. *)
Fixpoint replace_char (old : ascii) (new : string) (s : string) : string :=
  match s with
  | EmptyString => EmptyString
  | String c s => if decide (c = old) then new +:+ replace_char old new s
                  else String c (replace_char old new s)
  end.

(** [sanitise_id(raw_id)] *)
Definition sanitise_id (raw_id : string) : string :=
  replace_char "/"%char "" raw_id.

(** The name under which the table is offered for download and written by
    the command line: [f"{safe_id}_sleeplog_advanced.csv"] with
    [safe_id = sanitise_id(participant_id)]. *)
Definition output_file_name (participant_id : string) : string :=
  sanitise_id participant_id +:+ "_sleeplog_advanced.csv".

(** ** The builder as a sequence of placements *)

(** The placements an episode makes, in the order of the loop body: the
    field, the calendar date and the clock time of each. *)
Definition placements_of_row (noon_cutoff : Z) (row : Row) : list (string * string * string) :=
  match out_bed_dt row with
  | Some out_dt => [("wakeup", calendar_date_for_wakeup out_dt, fmt_time out_dt)]
  | None => []
  end ++
  match in_bed_dt row with
  | Some in_dt => [("inbed", calendar_date_for_inbed in_dt noon_cutoff, fmt_time in_dt)]
  | None => []
  end.

Definition placements (noon_cutoff : Z) (df : list Row) : list (string * string * string) :=
  flat_map (placements_of_row noon_cutoff) df.

Definition place_all (st : State) (ps : list (string * string * string)) : State :=
  fold_left (λ st p, place p.1.1 p.1.2 p.2 st) ps st.

(** The date and field a placement writes to. *)
Definition target (p : string * string * string) : string * string := (p.1.2, p.1.1).

(** The time of the first placement on a date and field. *)
Fixpoint first_placed (ps : list (string * string * string)) (cal_date field : string)
    : option string :=
  match ps with
  | [] => None
  | p :: ps => if decide (target p = (cal_date, field)) then Some p.2
               else first_placed ps cal_date field
  end.

(** The warnings of the placements whose date and field were written
    before, [seen] being the dates and fields written so far. *)
Fixpoint repeats (seen : gset (string * string)) (ps : list (string * string * string))
    : list LogRecord :=
  match ps with
  | [] => []
  | p :: ps => if decide (target p ∈ seen)
               then Warning p.1.1 p.1.2 :: repeats seen ps
               else repeats ({[target p]} ∪ seen) ps
  end.

(** The number of fields a calendar holds. *)
Definition fields_set (cal : Calendar) : nat :=
  sum_list ((λ de, size de.2) <$> map_to_list cal).

(** The number of timestamps an episode has. *)
Definition timestamps_present (row : Row) : nat :=
  (if out_bed_dt row is Some _ then 1 else 0) + (if in_bed_dt row is Some _ then 1 else 0).

(** The shape of the entries the builder makes: none is empty and none has a
    field other than the two the builder writes. *)
Definition entries_well_formed (cal : Calendar) : Prop :=
  ∀ d entry, cal !! d = Some entry →
    entry ≠ ∅ ∧ ∀ f, is_Some (entry !! f) → f = "wakeup" ∨ f = "inbed".

(** ** Counts shown to the user *)

(** The number of dates of a segment's row. *)
Definition dates_in (cal : Calendar) (seg : Segment) : nat :=
  length (segment_dates cal (start_date seg) (end_date seg)).

(** [(len(header) - 1) // 3]: the count of calendar dates the command line
    logs per segment, and the page reports for the table's columns. *)
Definition n_dates (header : list string) : nat := (length header - 1) / 3.

(** ** The command line's segments *)

(** Step 3 of [convert_sleepdiary_to_advanced]: the segments read from the
    JSON file when one is given, and otherwise the one segment of the
    participant, without bounds. *)
Definition cli_segments (segments_json : option (list Segment)) (participant_id : string)
    : list Segment :=
  match segments_json with
  | Some segments => segments
  | None => [ {| id := participant_id; start_date := None; end_date := None |} ]
  end.

(** ** The order of dates *)

(** The comparison of two timestamps by their dates: by year, then by month,
    then by day. *)
Definition date_compare (a b : Timestamp) : comparison :=
  match Nat.compare (Timestamp.year a) (Timestamp.year b) with
  | Eq => match Nat.compare (Timestamp.month a) (Timestamp.month b) with
          | Eq => Nat.compare (Timestamp.day a) (Timestamp.day b)
          | c => c
          end
  | c => c
  end.



(** The fields of a date fit the widths [strftime] pads them to. *)
Definition fits_iso_widths (dt : Timestamp) : Prop :=
  Timestamp.year dt < 100 * 100 ∧ Timestamp.month dt < 100 ∧ Timestamp.day dt < 100.

(** ** The segment form of the page *)

(** A [datetime.date], as [st.date_input] returns it. *)
Record Date : Type := mkDate { date_year : nat; date_month : nat; date_day : nat }.

(** [d.isoformat()] *)
Definition isoformat (d : Date) : string :=
  Timestamp.zero_pad 4 (date_year d) +:+ "-" +:+ Timestamp.zero_pad 2 (date_month d)
  +:+ "-" +:+ Timestamp.zero_pad 2 (date_day d).

(** The invariant of [datetime.date]. *)
Definition valid_date (d : Date) : Prop :=
  1 ≤ date_year d < 100 * 100 ∧ 1 ≤ date_month d ≤ 12
  ∧ 1 ≤ date_day d ≤ Timestamp.days_in_month (date_year d) (date_month d).

(** [a > b] on dates. *)
Definition date_gt (a b : Date) : bool :=
  match Nat.compare (date_year a) (date_year b) with
  | Eq => match Nat.compare (date_month a) (date_month b) with
          | Eq => (date_day b <? date_day a)%nat
          | Lt => false
          | Gt => true
          end
  | Lt => false
  | Gt => true
  end.

(** What the page shows after the form is submitted. *)
Inductive FormMessage : Type :=
| WarnEmptyName          (* "File name cannot be empty." *)
| WarnMissingDate        (* "Please select both a start date and an end date." *)
| WarnStartAfterEnd      (* "Start date must be before end date." *)
| AddedSegment (name : string).

(** The handler of the "Add Segment" form: the message shown and the
    segments of the session afterwards. [strip] is [str.strip]. *)
Definition add_segment_form (strip : string → string) (seg_id : string)
    (seg_start seg_end : option Date) (session : list Segment) : FormMessage * list Segment :=
  if bool_decide (strip seg_id = "") then (WarnEmptyName, session)
  else
    match seg_start, seg_end with
    | Some seg_start, Some seg_end =>
        if date_gt seg_start seg_end then (WarnStartAfterEnd, session)
        else (AddedSegment (strip seg_id),
              session ++ [ {| id := strip seg_id;
                              start_date := Some (isoformat seg_start);
                              end_date := Some (isoformat seg_end) |} ])
    | _, _ => (WarnMissingDate, session)
    end.

(** The first instant of a date. *)
Definition at_midnight (d : Date) : Timestamp :=
  Timestamp.make (date_year d) (date_month d) (date_day d) 0 0 0.

(** * Properties *)

(** ** The day before *)

Lemma Z_div_pred (k c : Z) :
  (0 < c)%Z → ((k - 1) `div` c = k `div` c - (if (k `mod` c =? 0)%Z then 1 else 0))%Z.
Proof.
  intros Hc. pose proof (Z.div_mod k c ltac:(lia)) as Hk.
  pose proof (Z.mod_pos_bound k c Hc) as Hb.
  destruct (Z.eqb_spec (k `mod` c) 0) as [E|E].
  - symmetry. apply (Z.div_unique_pos _ _ _ (c - 1)); lia.
  - symmetry. apply (Z.div_unique_pos _ _ _ (k `mod` c - 1)); lia.
Qed.

Lemma days_before_year_succ (y : nat) :
  2 ≤ y →
  Timestamp.days_before_year (Z.of_nat y) =
  (Timestamp.days_before_year (Z.of_nat (y - 1))
   + if Timestamp.is_leap_year (y - 1) then 366 else 365)%Z.
Proof.
  intros Hy. unfold Timestamp.days_before_year, Timestamp.is_leap_year.
  replace (Z.of_nat (y - 1) - 1)%Z with (Z.of_nat (y - 1)%nat - 1)%Z by lia.
  set (k := (y - 1)%nat). replace (Z.of_nat y - 1)%Z with (Z.of_nat k) by lia.
  rewrite !Z_div_pred by lia.
  assert (Hb : ∀ c : nat, (Z.of_nat k `mod` Z.of_nat c =? 0)%Z = (k `mod` c =? 0)%nat).
  { intros c. rewrite <- Nat2Z.inj_mod.
    destruct (Nat.eqb_spec (k `mod` c) 0), (Z.eqb_spec (Z.of_nat (k `mod` c)) 0); lia. }
  change 4%Z with (Z.of_nat 4). change 100%Z with (Z.of_nat 100).
  change 400%Z with (Z.of_nat 400). rewrite !Hb.
  assert (H100 : k `mod` 100 = 0 → k `mod` 4 = 0).
  { intros [c Hc]%Nat.Div0.mod_divides. apply Nat.Div0.mod_divides. exists (25 * c). lia. }
  assert (H400 : k `mod` 400 = 0 → k `mod` 100 = 0).
  { intros [c Hc]%Nat.Div0.mod_divides. apply Nat.Div0.mod_divides. exists (4 * c). lia. }
  repeat match goal with |- context [Nat.eqb ?a ?b] => destruct (Nat.eqb_spec a b) end;
    simpl; try lia; exfalso; tauto.
Qed.

Lemma toordinal_minus_one_day dt :
  Timestamp.valid dt → (1 < Timestamp.toordinal dt)%Z →
  (Timestamp.toordinal (Timestamp.minus_one_day dt) = Timestamp.toordinal dt - 1)%Z.
Proof.
  destruct dt as [y m d h mi s].
  unfold Timestamp.valid, Timestamp.minus_one_day, Timestamp.toordinal; simpl.
  intros (Hy & Hm & Hd & _) Hord.
  destruct (Nat.ltb_spec 1 d); simpl; [lia|].
  assert (d = 1) by lia. subst d.
  destruct (Nat.ltb_spec 1 m); simpl.
  - do 13 (destruct m as [|m]; [simpl; try lia|]); lia.
  - assert (m = 1) by lia. subst m. simpl in *.
    assert (2 ≤ y) by (destruct (decide (y = 1)); [subst; vm_compute in Hord; discriminate | lia]).
    rewrite (days_before_year_succ y) by done.
    destruct (Timestamp.is_leap_year (y - 1)); lia.
Qed.

Lemma minus_one_day_valid dt :
  Timestamp.valid dt → (1 < Timestamp.toordinal dt)%Z →
  Timestamp.valid (Timestamp.minus_one_day dt).
Proof.
  destruct dt as [y m d h mi s].
  unfold Timestamp.valid, Timestamp.minus_one_day, Timestamp.toordinal; simpl.
  intros (Hy & Hm & Hd & Ht) Hord.
  destruct (Nat.ltb_spec 1 d); simpl; [lia|].
  assert (d = 1) by lia. subst d.
  destruct (Nat.ltb_spec 1 m); simpl.
  - assert (1 ≤ Timestamp.days_in_month y (m - 1))
      by (unfold Timestamp.days_in_month; repeat case_match; lia).
    repeat split; lia.
  - assert (m = 1) by lia. subst m. simpl in *.
    assert (2 ≤ y) by (destruct (decide (y = 1)); [subst; vm_compute in Hord; discriminate | lia]).
    repeat split; try lia.
Qed.

(** ** Placement into the calendar *)

Lemma get_field_place f d t st d' f' :
  get_field (calendar (place f d t st)) d' f' =
  if decide (d' = d ∧ f' = f)
  then Some (default t (get_field (calendar st) d f))
  else get_field (calendar st) d' f'.
Proof.
  unfold place, setdefault, get_field.
  destruct (calendar st !! d) as [entry|] eqn:Hd; simpl.
  - destruct (decide (is_Some (entry !! f))) as [[v Hv]|Hn]; simpl.
    + case_decide as Hc; [|done]. destruct Hc as [-> ->]. by rewrite Hd; simpl; rewrite Hv.
    + apply eq_None_not_Some in Hn. rewrite Hn. simpl.
      destruct (decide (d' = d)) as [->|Hne].
      * rewrite lookup_insert_eq; simpl.
        destruct (decide (f' = f)) as [->|Hnf].
        -- rewrite lookup_insert_eq. by rewrite decide_True.
        -- rewrite lookup_insert_ne by done. rewrite decide_False by (intros [? ?]; congruence).
           by rewrite Hd.
      * rewrite lookup_insert_ne by done. by rewrite decide_False by (intros [? ?]; congruence).
  - rewrite decide_False by (rewrite lookup_empty; by intros [? ?]).
    simpl. rewrite insert_insert_eq.
    destruct (decide (d' = d)) as [->|Hne].
    + rewrite lookup_insert_eq; simpl.
      destruct (decide (f' = f)) as [->|Hnf].
      * rewrite lookup_insert_eq. by rewrite decide_True.
      * rewrite lookup_insert_ne by done. rewrite decide_False by (intros [? ?]; congruence).
        by rewrite Hd.
    + rewrite lookup_insert_ne by done. by rewrite decide_False by (intros [? ?]; congruence).
Qed.

Lemma place_collision f d t st :
  is_Some (get_field (calendar st) d f) →
  place f d t st = {| calendar := calendar st; log := log st ++ [Warning f d] |}.
Proof.
  unfold place, setdefault, get_field. intros [v Hv].
  destruct (calendar st !! d) as [entry|]; simpl in *; [|done].
  by rewrite decide_True by eauto.
Qed.

Lemma place_fresh_log f d t st :
  get_field (calendar st) d f = None → log (place f d t st) = log st.
Proof.
  unfold place, setdefault, get_field. intros Hv.
  destruct (calendar st !! d) as [entry|]; simpl in *.
  - rewrite decide_False; [done|]. rewrite Hv. by intros [? ?].
  - rewrite decide_False; [done|]. rewrite lookup_empty. by intros [? ?].
Qed.

Lemma place_keeps f d t st d' f' v :
  get_field (calendar st) d' f' = Some v →
  get_field (calendar (place f d t st)) d' f' = Some v.
Proof.
  intros Hv. rewrite get_field_place. case_decide as Hc; [|done].
  destruct Hc as [-> ->]. by rewrite Hv.
Qed.

Lemma build_calendar_row_keeps noon st row d f v :
  get_field (calendar st) d f = Some v →
  get_field (calendar (build_calendar_row noon st row)) d f = Some v.
Proof.
  intros Hv. unfold build_calendar_row.
  destruct (out_bed_dt row), (in_bed_dt row); auto using place_keeps.
Qed.

Lemma build_calendar_from_keeps noon df st d f v :
  get_field (calendar st) d f = Some v →
  get_field (calendar (build_calendar_from noon st df)) d f = Some v.
Proof.
  revert st. induction df as [|row df IH]; intros st Hv; [done|].
  simpl. apply IH. by apply build_calendar_row_keeps.
Qed.

Lemma build_calendar_from_app noon st df1 df2 :
  build_calendar_from noon st (df1 ++ df2) =
  build_calendar_from noon (build_calendar_from noon st df1) df2.
Proof. apply fold_left_app. Qed.

(** After a row with a bedtime, the bedtime's date has its [inbed] field set:
    to the row's clock time when the field was free before the row. *)
Lemma build_calendar_row_inbed noon st row dt :
  in_bed_dt row = Some dt →
  get_field (calendar (build_calendar_row noon st row))
            (calendar_date_for_inbed dt noon) "inbed" =
  Some (default (fmt_time dt)
          (get_field (calendar st) (calendar_date_for_inbed dt noon) "inbed")).
Proof.
  intros Hin. unfold build_calendar_row. rewrite Hin.
  rewrite get_field_place, decide_True by done. f_equal. f_equal.
  destruct (out_bed_dt row); [|done].
  rewrite get_field_place. by rewrite decide_False by (intros [_ [=]]).
Qed.

Lemma build_calendar_row_wakeup noon st row dt :
  out_bed_dt row = Some dt →
  get_field (calendar (build_calendar_row noon st row))
            (calendar_date_for_wakeup dt) "wakeup" =
  Some (default (fmt_time dt)
          (get_field (calendar st) (calendar_date_for_wakeup dt) "wakeup")).
Proof.
  intros Hout. unfold build_calendar_row. rewrite Hout.
  destruct (in_bed_dt row).
  - rewrite get_field_place, decide_False by (intros [_ [=]]).
    by rewrite get_field_place, decide_True.
  - by rewrite get_field_place, decide_True.
Qed.

Lemma build_calendar_row_wakeup_fields noon1 noon2 st1 st2 row :
  (∀ d, get_field (calendar st1) d "wakeup" = get_field (calendar st2) d "wakeup") →
  ∀ d, get_field (calendar (build_calendar_row noon1 st1 row)) d "wakeup" =
       get_field (calendar (build_calendar_row noon2 st2 row)) d "wakeup".
Proof.
  intros Hst d. unfold build_calendar_row.
  destruct (in_bed_dt row) as [in_dt|];
    [rewrite !(get_field_place "inbed"), !decide_False by (intros [_ [=]])|];
    (destruct (out_bed_dt row) as [out_dt|]; [|done]);
    rewrite !(get_field_place "wakeup"), Hst; by case_decide.
Qed.

Lemma build_calendar_from_wakeup_fields noon1 noon2 df st1 st2 :
  (∀ d, get_field (calendar st1) d "wakeup" = get_field (calendar st2) d "wakeup") →
  ∀ d, get_field (calendar (build_calendar_from noon1 st1 df)) d "wakeup" =
       get_field (calendar (build_calendar_from noon2 st2 df)) d "wakeup".
Proof.
  revert st1 st2. induction df as [|row df IH]; intros st1 st2 Hst; [done|].
  simpl. apply IH. by apply build_calendar_row_wakeup_fields.
Qed.

(** ** Claims about the calendar builder *)

(** C1. A bedtime present in an episode is assigned to the date of its
    timestamp when the hour is at least the cutoff, and to that date minus one
    day when the hour is below it: after the run, the [inbed] field of that date
    holds the value already there before the episode, or else the episode's
    clock time. With cutoff 12 a bedtime at 2025-01-02 01:30 goes to
    2025-01-01, and a bedtime at 2025-01-02 13:30 to 2025-01-02. *)
Theorem bedtime_placement (noon_cutoff : Z) (pre post : list Row) (row : Row) (dt : Timestamp) :
  in_bed_dt row = Some dt →
  let cal_date :=
    if (noon_cutoff <=? Z.of_nat (Timestamp.hour dt))%Z
    then Timestamp.strftime_date dt
    else Timestamp.strftime_date (Timestamp.minus_one_day dt) in
  calendar_date_for_inbed dt noon_cutoff = cal_date
  ∧ get_field (build_calendar (pre ++ row :: post) noon_cutoff) cal_date "inbed" =
    Some (default (Timestamp.strftime_time dt)
            (get_field (build_calendar pre noon_cutoff) cal_date "inbed"))
  ∧ calendar_date_for_inbed (Timestamp.make 2025 1 2 1 30 0) 12 = "2025-01-01"
  ∧ calendar_date_for_inbed (Timestamp.make 2025 1 2 13 30 0) 12 = "2025-01-02".
Proof.
  intros Hin cal_date.
  assert (Hdate : calendar_date_for_inbed dt noon_cutoff = cal_date).
  { unfold calendar_date_for_inbed, cal_date.
    destruct (Z.ltb_spec (Z.of_nat (Timestamp.hour dt)) noon_cutoff),
      (Z.leb_spec noon_cutoff (Z.of_nat (Timestamp.hour dt))); done || lia. }
  split; [done|]. split; [|by vm_compute].
  unfold build_calendar, build_calendar_run.
  rewrite build_calendar_from_app. simpl.
  set (st := build_calendar_from noon_cutoff _ pre).
  pose proof (build_calendar_row_inbed noon_cutoff st row dt Hin) as Hrow.
  rewrite Hdate in Hrow. fold (fmt_time dt).
  destruct (get_field (calendar st) cal_date "inbed") as [v|] eqn:Hv; simpl in *.
  - apply build_calendar_from_keeps. by rewrite Hrow.
  - by apply build_calendar_from_keeps.
Qed.

Lemma bedtime_placement_witness :
  get_field
    (build_calendar
       [mkRow (mkSourceRow (Some "AK/01") None (Some "01/02/25 01:30")) None
              (Some (Timestamp.make 2025 1 2 1 30 0))] 12)
    "2025-01-01" "inbed" = Some "01:30:00".
Proof.
  exact (proj1 (proj2 (bedtime_placement 12 [] []
    (mkRow (mkSourceRow (Some "AK/01") None (Some "01/02/25 01:30")) None
           (Some (Timestamp.make 2025 1 2 1 30 0)))
    (Timestamp.make 2025 1 2 1 30 0) eq_refl))).
Defined.

(** C2. A wakeup present in an episode is assigned to the date of its own
    timestamp, whatever the cutoff: after the run, the [wakeup] field of that
    date holds the value already there before the episode, or else the
    episode's clock time, and no [wakeup] field of the calendar depends on the
    cutoff. A wakeup at 2025-01-02 01:30 goes to 2025-01-02. *)
Theorem wakeup_placement (noon_cutoff : Z) (pre post : list Row) (row : Row) (dt : Timestamp) :
  out_bed_dt row = Some dt →
  let cal_date := Timestamp.strftime_date dt in
  calendar_date_for_wakeup dt = cal_date
  ∧ get_field (build_calendar (pre ++ row :: post) noon_cutoff) cal_date "wakeup" =
    Some (default (Timestamp.strftime_time dt)
            (get_field (build_calendar pre noon_cutoff) cal_date "wakeup"))
  ∧ (∀ (other_cutoff : Z) (d : string),
       get_field (build_calendar (pre ++ row :: post) other_cutoff) d "wakeup" =
       get_field (build_calendar (pre ++ row :: post) noon_cutoff) d "wakeup")
  ∧ calendar_date_for_wakeup (Timestamp.make 2025 1 2 1 30 0) = "2025-01-02".
Proof.
  intros Hout cal_date. split; [done|]. split; [|split; [|by vm_compute]].
  - unfold build_calendar, build_calendar_run.
    rewrite build_calendar_from_app. simpl.
    set (st := build_calendar_from noon_cutoff _ pre).
    pose proof (build_calendar_row_wakeup noon_cutoff st row dt Hout) as Hrow.
    fold (fmt_time dt). change (calendar_date_for_wakeup dt) with cal_date in Hrow.
    destruct (get_field (calendar st) cal_date "wakeup") as [v|] eqn:Hv; simpl in *.
    + apply build_calendar_from_keeps. by rewrite Hrow.
    + by apply build_calendar_from_keeps.
  - intros other_cutoff d. unfold build_calendar, build_calendar_run.
    by apply build_calendar_from_wakeup_fields.
Qed.

Lemma wakeup_placement_witness :
  get_field
    (build_calendar
       [mkRow (mkSourceRow (Some "AK/01") (Some "01/02/25 01:30") None)
              (Some (Timestamp.make 2025 1 2 1 30 0)) None] 0)
    "2025-01-02" "wakeup" = Some "01:30:00".
Proof.
  exact (proj1 (proj2 (wakeup_placement 0 [] []
    (mkRow (mkSourceRow (Some "AK/01") (Some "01/02/25 01:30") None)
           (Some (Timestamp.make 2025 1 2 1 30 0)) None)
    (Timestamp.make 2025 1 2 1 30 0) eq_refl))).
Defined.

Lemma log_place f d t st w : w ∈ log st → w ∈ log (place f d t st).
Proof.
  intros Hw. unfold place. destruct (setdefault _ _ _) as [cal entry].
  case_decide; simpl; [|done]. apply elem_of_app. by left.
Qed.

Lemma log_place_collision f d t st :
  is_Some (get_field (calendar st) d f) → Warning f d ∈ log (place f d t st).
Proof.
  intros Hset. rewrite place_collision by done. simpl.
  apply elem_of_app. right. by apply list_elem_of_singleton.
Qed.

Lemma build_calendar_row_collision noon st row d f :
  is_Some (get_field (calendar st) d f) → assigns noon row d f →
  Warning f d ∈ log (build_calendar_row noon st row).
Proof.
  intros Hset [[-> (dt & Hdt & <-)]|[-> (dt & Hdt & <-)]]; unfold build_calendar_row; rewrite Hdt.
  - destruct (in_bed_dt row); [apply log_place|]; by apply log_place_collision.
  - apply log_place_collision. destruct Hset as [v Hv].
    destruct (out_bed_dt row); [|by eauto]. exists v. by apply place_keeps.
Qed.

(** C3. First write wins. Once a field of a date holds a value, an assignment
    to the same date and field leaves the calendar as it is and logs one
    warning naming the field and the date; an episode that assigns to them
    is reported in the log and the field keeps its value; and whatever
    episodes follow, in their order, the field still holds that value. The
    builder returns a calendar in every case: a collision is a log record,
    not an exception. *)
Theorem first_write_wins (noon_cutoff : Z) (st : State) (episode : Row) (later : list Row)
    (cal_date field value time : string) :
  get_field (calendar st) cal_date field = Some value →
  place field cal_date time st =
    {| calendar := calendar st; log := log st ++ [Warning field cal_date] |}
  ∧ (assigns noon_cutoff episode cal_date field →
     Warning field cal_date ∈ log (build_calendar_row noon_cutoff st episode)
     ∧ get_field (calendar (build_calendar_row noon_cutoff st episode)) cal_date field
       = Some value)
  ∧ get_field (calendar (build_calendar_from noon_cutoff st later)) cal_date field = Some value.
Proof.
  intros Hv. split; [|split].
  - apply place_collision. by rewrite Hv.
  - intros Hassigns. split.
    + apply build_calendar_row_collision; [by rewrite Hv|done].
    + by apply build_calendar_row_keeps.
  - by apply build_calendar_from_keeps.
Qed.

(** ** The dates of a segment *)

Lemma elem_of_sorted_keys (cal : Calendar) d : d ∈ sorted_keys cal ↔ d ∈ dom cal.
Proof.
  unfold sorted_keys. rewrite merge_sort_Permutation, elem_of_dom, list_elem_of_fmap.
  split.
  - intros [[k e] [-> Hke]]. apply elem_of_map_to_list in Hke. eauto.
  - intros [e He]. exists (d, e). split; [done|]. by apply elem_of_map_to_list.
Qed.

Lemma NoDup_sorted_keys (cal : Calendar) : NoDup (sorted_keys cal).
Proof.
  unfold sorted_keys. rewrite merge_sort_Permutation. apply NoDup_fst_map_to_list.
Qed.

Lemma StronglySorted_sorted_keys (cal : Calendar) : StronglySorted String.le (sorted_keys cal).
Proof. apply (StronglySorted_merge_sort _). Qed.

Lemma StronglySorted_filter {A} (R : relation A) (P : A → Prop) `{∀ x, Decision (P x)} l :
  StronglySorted R l → StronglySorted R (filter P l).
Proof.
  induction 1 as [|x l Hl IH Hx]; [constructor|].
  rewrite filter_cons. case_decide; [|done].
  constructor; [done|]. apply Forall_forall. intros y [_ Hy]%list_elem_of_filter.
  by eapply Forall_forall in Hx.
Qed.

Lemma elem_of_filter_start start_date dates d :
  d ∈ filter_start start_date dates ↔ d ∈ dates ∧ lower_ok start_date d.
Proof.
  unfold filter_start, lower_ok. destruct start_date as [s|]; [|tauto].
  case_bool_decide; [tauto|]. rewrite list_elem_of_filter. tauto.
Qed.

Lemma elem_of_filter_end end_date dates d :
  d ∈ filter_end end_date dates ↔ d ∈ dates ∧ upper_ok end_date d.
Proof.
  unfold filter_end, upper_ok. destruct end_date as [e|]; [|tauto].
  case_bool_decide; [tauto|]. rewrite list_elem_of_filter. tauto.
Qed.

Lemma elem_of_segment_dates cal start_date end_date d :
  d ∈ segment_dates cal start_date end_date ↔ d ∈ dom cal ∧ in_range start_date end_date d.
Proof.
  unfold segment_dates, in_range.
  rewrite elem_of_filter_end, elem_of_filter_start, elem_of_sorted_keys. tauto.
Qed.

Lemma NoDup_segment_dates cal start_date end_date :
  NoDup (segment_dates cal start_date end_date).
Proof.
  unfold segment_dates, filter_end, filter_start.
  pose proof (NoDup_sorted_keys cal).
  destruct end_date, start_date; repeat case_bool_decide; auto using NoDup_filter.
Qed.

Lemma StronglySorted_segment_dates cal start_date end_date :
  StronglySorted String.le (segment_dates cal start_date end_date).
Proof.
  unfold segment_dates, filter_end, filter_start.
  pose proof (StronglySorted_sorted_keys cal).
  destruct end_date, start_date; repeat case_bool_decide;
    auto using StronglySorted_filter.
Qed.

Lemma length_segment_dates cal start_date end_date :
  length (segment_dates cal start_date end_date) =
  size (filter (in_range start_date end_date) (dom cal)).
Proof.
  rewrite <- (size_list_to_set (C:=gset string)) by apply NoDup_segment_dates.
  f_equal. apply set_eq. intros d.
  rewrite elem_of_list_to_set, elem_of_segment_dates, elem_of_filter. tauto.
Qed.

(** ** The row loop *)

Lemma row_loop_spec cal dates i header values :
  Forall (λ d, d ∈ dom cal) dates →
  row_loop cal i dates header values =
  Ok (header ++ flat_map date_header (seq i (length dates)),
      values ++ flat_map (date_values cal) dates).
Proof.
  intros Hdates. revert i header values.
  induction Hdates as [|d dates Hd _ IH]; intros i header values; simpl.
  - by rewrite !app_nil_r.
  - apply elem_of_dom in Hd as [entry He]. rewrite He, IH.
    unfold date_values at 2, get_field. rewrite He. simpl.
    by rewrite <- !app_assoc.
Qed.

Lemma build_wide_row_spec segment_id cal start_date end_date :
  build_wide_row segment_id cal start_date end_date =
  Ok (header_of (length (segment_dates cal start_date end_date)),
      values_of segment_id cal (segment_dates cal start_date end_date)).
Proof.
  unfold build_wide_row. fold (segment_dates cal start_date end_date).
  rewrite row_loop_spec; [done|].
  apply Forall_forall. intros d Hd. by apply elem_of_segment_dates in Hd as [? _].
Qed.

Lemma length_header_of n : length (header_of n) = 1 + 3 * n.
Proof.
  unfold header_of. simpl. f_equal. generalize 1.
  induction n as [|n IH]; intros i; simpl; [done|]. rewrite IH. lia.
Qed.

Lemma length_values_of segment_id cal dates :
  length (values_of segment_id cal dates) = 1 + 3 * length dates.
Proof.
  unfold values_of. simpl. f_equal.
  induction dates as [|d dates IH]; simpl; [done|]. rewrite IH. lia.
Qed.

(** ** Claims about one wide row *)

(** C6. A segment whose range matches no calendar date yields the header
    [ID] alone and the values [segment_id] alone, as a result and not as an
    exception. *)
Theorem degenerate_segment_row (segment_id : string) (cal : Calendar)
    (start_date end_date : option string) :
  (∀ d, d ∈ dom cal → ¬ in_range start_date end_date d) →
  build_wide_row segment_id cal start_date end_date = Ok (["ID"], [segment_id]).
Proof.
  intros Hnone. rewrite build_wide_row_spec.
  destruct (segment_dates cal start_date end_date) as [|d dates] eqn:Hdates; [done|].
  assert (Hd : d ∈ segment_dates cal start_date end_date) by (rewrite Hdates; left).
  apply elem_of_segment_dates in Hd as [Hdom Hin]. by destruct (Hnone d).
Qed.

Lemma degenerate_segment_row_witness :
  build_wide_row "c.GT3X"
    (<["2025-01-01" := {["inbed" := "01:30:00"]}]> (∅ : Calendar))
    (Some "2026-01-01") (Some "2026-01-31") = Ok (["ID"], ["c.GT3X"]).
Proof.
  apply (degenerate_segment_row "c.GT3X"
           (<["2025-01-01" := {["inbed" := "01:30:00"]}]> (∅ : Calendar))
           (Some "2026-01-01") (Some "2026-01-31")).
  intros d Hd [Hlo _]. rewrite dom_insert_L, dom_empty_L in Hd.
  apply elem_of_union in Hd as [Hd|Hd]; [|by apply elem_of_empty in Hd].
  apply elem_of_singleton in Hd. subst d.
  destruct Hlo as [Hlo|Hlo]; [discriminate Hlo|exact Hlo].
Defined.

(** C8. The row is built over exactly the calendar dates [d] with
    [start_date <= d] when a start date is given and [d <= end_date] when an
    end date is given (a bound is given when it is a non-empty string), in
    ascending order and each once. A calendar with the dates 2025-01-01,
    2025-01-02 and 2025-01-05 and the segment from 2025-01-02 to 2025-01-04
    gives the one date column 2025-01-02. *)
Theorem range_filter (segment_id : string) (cal : Calendar)
    (start_date end_date : option string) :
  let kept := segment_dates cal start_date end_date in
  (∀ d, d ∈ kept ↔
        d ∈ dom cal
        ∧ match start_date with Some s => s = "" ∨ String.le s d | None => True end
        ∧ match end_date with Some e => e = "" ∨ String.le d e | None => True end)
  ∧ StronglySorted String.le kept
  ∧ NoDup kept
  ∧ build_wide_row segment_id cal start_date end_date =
    Ok ("ID" :: flat_map date_header (seq 1 (length kept)),
        segment_id :: flat_map (date_values cal) kept)
  ∧ build_wide_row "a.GT3X"
      (list_to_map [("2025-01-01", {["inbed" := "01:30:00"]});
                    ("2025-01-02", {["wakeup" := "07:15:00"]});
                    ("2025-01-05", {["wakeup" := "08:00:00"]})])
      (Some "2025-01-02") (Some "2025-01-04") =
    Ok (["ID"; "D1_date"; "D1_wakeup"; "D1_inbed"], ["a.GT3X"; "2025-01-02"; "07:15:00"; ""]).
Proof.
  intros kept. split; [|split; [|split; [|split]]].
  - intros d. apply elem_of_segment_dates.
  - apply StronglySorted_segment_dates.
  - apply NoDup_segment_dates.
  - apply build_wide_row_spec.
  - by vm_compute.
Qed.


(** ** Table assembly *)

Lemma length_row_header_values cal seg :
  length (row_header cal seg) = length (row_values cal seg).
Proof. unfold row_header, row_values. by rewrite length_header_of, length_values_of. Qed.

Lemma rows_loop_spec cal segments rows max_cols :
  rows_loop cal segments rows max_cols =
  Ok (rows ++ map (row_values cal) segments,
      Nat.max max_cols (max_list (map (λ seg, length (row_values cal seg)) segments))).
Proof.
  revert rows max_cols. induction segments as [|seg segments IH]; intros rows max_cols; simpl.
  - by rewrite app_nil_r, Nat.max_0_r.
  - rewrite build_wide_row_spec. simpl. rewrite IH.
    fold (row_values cal seg). by rewrite <- app_assoc, Nat.max_assoc.
Qed.

Lemma headers_spec cal segments :
  headers cal segments = Ok (map (row_header cal) segments).
Proof.
  induction segments as [|seg segments IH]; simpl; [done|].
  rewrite build_wide_row_spec. simpl. by rewrite IH.
Qed.

Lemma append_blanks_spec n row : append_blanks n row = row ++ replicate n "".
Proof.
  revert row. induction n as [|n IH]; intros row; simpl.
  - by rewrite app_nil_r.
  - by rewrite IH, <- app_assoc.
Qed.

Lemma pad_spec max_cols row : pad max_cols row = row ++ replicate (max_cols - length row) "".
Proof. apply append_blanks_spec. Qed.

(** When the padding loop stops, its condition is false. *)
Lemma length_pad max_cols row : length (pad max_cols row) = Nat.max max_cols (length row).
Proof. rewrite pad_spec, length_app, length_replicate. lia. Qed.

Lemma max_len_from_spec best items :
  ∃ k, (best :: items) !! k = Some (max_len_from best items)
       ∧ length (max_len_from best items) = max_list (map length (best :: items))
       ∧ ∀ j x, j < k → (best :: items) !! j = Some x →
                length x < length (max_len_from best items).
Proof.
  revert best. induction items as [|item items IH]; intros best.
  - exists 0. simpl. split; [done|]. split; [lia|]. intros j x Hj. lia.
  - simpl. destruct (Nat.ltb_spec (length best) (length item)) as [Hlt|Hge].
    + destruct (IH item) as (k & Hk & Hlen & Hfirst). exists (S k).
      split; [done|]. simpl in Hlen. split; [lia|].
      intros [|j] x Hj Hx; simpl in Hx.
      * injection Hx as <-. lia.
      * apply (Hfirst j); [lia|done].
    + destruct (IH best) as (k & Hk & Hlen & Hfirst). simpl in Hlen.
      destruct k as [|k].
      * exists 0. split; [done|]. split; [lia|]. intros j x Hj. lia.
      * exists (S (S k)). split; [done|]. split; [lia|].
        intros [|[|j]] x Hj Hx; simpl in Hx.
        -- apply (Hfirst 0); [lia|done].
        -- injection Hx as <-.
           assert (length best < length (max_len_from best items))
             by (apply (Hfirst 0); [lia|done]).
           lia.
        -- apply (Hfirst (S j)); [lia|done].
Qed.

Lemma make_DataFrame_ok rows cols :
  Forall (λ row, length row = length cols) rows →
  make_DataFrame rows cols = Ok {| columns := cols; data := rows |}.
Proof.
  intros Hrows. unfold make_DataFrame.
  assert (forallb (λ row, (length row =? length cols)%nat) rows = true) as ->; [|done].
  apply forallb_forall. intros row Hrow%list_elem_of_In.
  apply Nat.eqb_eq. by eapply Forall_forall in Hrows.
Qed.

Lemma assemble_nil cal : assemble [] cal = Raise MaxEmptySequence.
Proof. done. Qed.

Lemma assemble_unfold cal segments :
  assemble segments cal =
  let max_cols := max_list (map (λ s, length (row_values cal s)) segments) in
  let! longest_header := max_len (map (row_header cal) segments) in
  make_DataFrame (map (pad max_cols) (map (row_values cal) segments))
                 (pad max_cols longest_header).
Proof. unfold assemble. by rewrite rows_loop_spec, headers_spec. Qed.

Lemma assemble_cons cal seg segments :
  let max_cols := max_list (map (λ s, length (row_values cal s)) (seg :: segments)) in
  assemble (seg :: segments) cal =
  Ok {| columns := max_len_from (row_header cal seg) (map (row_header cal) segments);
        data := map (pad max_cols) (map (row_values cal) (seg :: segments)) |}
  ∧ length (max_len_from (row_header cal seg) (map (row_header cal) segments)) = max_cols.
Proof.
  intros max_cols.
  destruct (max_len_from_spec (row_header cal seg) (map (row_header cal) segments))
    as (k & Hk & Hlen & _).
  assert (Hwidth : length (max_len_from (row_header cal seg) (map (row_header cal) segments))
                   = max_cols).
  { rewrite Hlen. unfold max_cols.
    change (row_header cal seg :: map (row_header cal) segments)
      with (map (row_header cal) (seg :: segments)).
    rewrite map_map. f_equal. apply map_ext. intros s. apply length_row_header_values. }
  split; [|done].
  rewrite assemble_unfold. fold max_cols. cbn [map max_len bind].
  rewrite (pad_spec max_cols (max_len_from _ _)), Hwidth, Nat.sub_diag, app_nil_r.
  apply (make_DataFrame_ok (map (pad max_cols) (map (row_values cal) (seg :: segments)))).
  rewrite Hwidth.
  apply Forall_forall. intros row Hrow.
  apply list_elem_of_fmap in Hrow as (v & -> & Hv).
  apply list_elem_of_fmap in Hv as (s & -> & Hs).
  rewrite length_pad.
  assert (length (row_values cal s) ≤ max_cols); [|lia].
  apply max_list_elem_of_le.
  apply (list_elem_of_fmap_2 (λ s, length (row_values cal s))) in Hs. exact Hs.
Qed.

(** ** Claims about the table and the entry point *)

(** C7. For a non-empty segment list the table is rectangular: with
    [max_width] the greatest length of a values row, every row is its
    segment's values followed by empty strings up to [max_width], and the
    header is the header of the first segment whose row has that length,
    padded the same way. *)
Theorem table_assembly (cal : Calendar) (seg : Segment) (others : list Segment) :
  ∃ (built : list (list string * list string)) (df : DataFrame),
    Forall2 (λ s hv, build_wide_row (id s) cal (start_date s) (end_date s) = Ok hv)
            (seg :: others) built
    ∧ assemble (seg :: others) cal = Ok df
    ∧ let max_width := max_list (map (λ hv, length hv.2) built) in
      data df = map (λ hv, hv.2 ++ replicate (max_width - length hv.2) "") built
      ∧ Forall (λ row, length row = max_width) (data df)
      ∧ length (columns df) = max_width
      ∧ ∃ k hv, built !! k = Some hv
                ∧ length hv.2 = max_width
                ∧ (∀ j hv', j < k → built !! j = Some hv' → length hv'.2 < max_width)
                ∧ columns df = hv.1 ++ replicate (max_width - length hv.1) "".
Proof.
  set (segments := seg :: others).
  set (built := map (λ s, (row_header cal s, row_values cal s)) segments).
  destruct (assemble_cons cal seg others) as [Hdf Hwidth]. fold segments in Hdf, Hwidth.
  assert (Hmax : max_list (map (λ hv, length hv.2) built) =
                 max_list (map (λ s, length (row_values cal s)) segments)).
  { unfold built. by rewrite map_map. }
  eexists built, _. split; [|split; [exact Hdf|]].
  { unfold built. apply Forall2_fmap_r, Forall_Forall2_diag, Forall_forall.
    intros s _. apply build_wide_row_spec. }
  cbv zeta. rewrite Hmax. cbn [data columns].
  set (max_width := max_list (map (λ s, length (row_values cal s)) segments)) in *.
  split; [|split; [|split; [done|]]].
  - unfold built. rewrite !map_map. apply map_ext. intros s. apply pad_spec.
  - apply Forall_forall. intros row Hrow.
    apply list_elem_of_fmap in Hrow as (v & -> & Hv).
    apply list_elem_of_fmap in Hv as (s & -> & Hs).
    rewrite length_pad.
    assert (length (row_values cal s) ≤ max_width); [|lia].
    apply max_list_elem_of_le.
    by apply (list_elem_of_fmap_2 (λ s, length (row_values cal s))) in Hs.
  - destruct (max_len_from_spec (row_header cal seg) (map (row_header cal) others))
      as (k & Hk & _ & Hfirst).
    change (row_header cal seg :: map (row_header cal) others)
      with (map (row_header cal) segments) in Hk, Hfirst.
    rewrite list_lookup_fmap in Hk.
    destruct (segments !! k) as [s|] eqn:Hs; [|done]. injection Hk as Hk.
    exists k, (row_header cal s, row_values cal s). cbn [fst snd].
    split; [by unfold built; rewrite list_lookup_fmap, Hs|].
    split; [by rewrite <- length_row_header_values, Hk|].
    split.
    + intros j hv' Hj Hhv'. unfold built in Hhv'. rewrite list_lookup_fmap in Hhv'.
      destruct (segments !! j) as [s'|] eqn:Hs'; [|done]. injection Hhv' as <-.
      cbn [snd]. rewrite <- length_row_header_values, <- Hwidth.
      apply (Hfirst j); [done|]. by rewrite list_lookup_fmap, Hs'.
    + rewrite Hk, Hwidth, Nat.sub_diag, app_nil_r. done.
Qed.

(** C4, as the code has it. The entry point has no check of its own for an
    empty segment list: with no usable row it raises the no-usable-rows error,
    and otherwise table assembly runs over zero segments and fails in [max] on
    an empty sequence. The page is what refuses an empty list: it converts
    only when the session holds a segment. *)
Theorem empty_segment_list (to_datetime : string → string → option Timestamp)
    (df : list SourceRow) (noon_cutoff : Z) (datetime_fmt : string)
    (seg : Segment) (others : list Segment) :
  convert_sleeplog_in_memory to_datetime df [] noon_cutoff datetime_fmt =
    (if bool_decide (dropna df = []) then Raise NoUsableRows else Raise MaxEmptySequence)
  ∧ assemble [] (build_calendar (add_datetime_columns to_datetime datetime_fmt (dropna df))
                                noon_cutoff) = Raise MaxEmptySequence
  ∧ app_convert to_datetime df [] = None
  ∧ app_convert to_datetime df (seg :: others) =
    Some (convert_sleeplog_in_memory to_datetime df (seg :: others) 12 "%m/%d/%y %H:%M").
Proof.
  unfold convert_sleeplog_in_memory. split; [|done]. by case_bool_decide.
Qed.

(** The claim C4 fails on the worked diary: the call with no segment reaches
    table assembly, and what it raises is the error of [max], not a rejection
    of the segment list. *)
Lemma empty_segment_list_counterexample :
  dropna diary ≠ []
  ∧ convert_sleeplog_in_memory Strptime.to_datetime diary [] 12 "%m/%d/%y %H:%M" =
    assemble [] (build_calendar
                   (add_datetime_columns Strptime.to_datetime "%m/%d/%y %H:%M" (dropna diary)) 12)
  ∧ convert_sleeplog_in_memory Strptime.to_datetime diary [] 12 "%m/%d/%y %H:%M" =
    Raise MaxEmptySequence.
Proof. by vm_compute. Qed.

Lemma assemble_not_NoUsableRows segments cal : assemble segments cal ≠ Raise NoUsableRows.
Proof.
  destruct segments as [|seg others]; [by rewrite assemble_nil|].
  by destruct (assemble_cons cal seg others) as [-> _].
Qed.

(** C5, as the code has it. The no-usable-rows error is raised exactly when
    every row has both source cells missing; the check runs on the cells
    before they are parsed, so text that does not parse is not missing. No
    table comes with the error. *)
Theorem no_usable_rows (to_datetime : string → string → option Timestamp)
    (df : list SourceRow) (segments : list Segment) (noon_cutoff : Z) (datetime_fmt : string) :
  (convert_sleeplog_in_memory to_datetime df segments noon_cutoff datetime_fmt
     = Raise NoUsableRows
   ↔ Forall (λ r, Out_Bed r = None ∧ In_Bed r = None) df)
  ∧ (Forall (λ r, Out_Bed r = None ∧ In_Bed r = None) df ↔ dropna df = []).
Proof.
  assert (Hdrop : Forall (λ r, Out_Bed r = None ∧ In_Bed r = None) df ↔ dropna df = []).
  { unfold dropna. induction df as [|r df IH]; [done|].
    rewrite Forall_cons, filter_cons, IH.
    destruct (decide (¬ (Out_Bed r = None ∧ In_Bed r = None))) as [Hr|Hr].
    - split; [tauto|done].
    - apply dec_stable in Hr. tauto. }
  split; [|done]. rewrite Hdrop. unfold convert_sleeplog_in_memory.
  case_bool_decide as Hempty; [done|].
  split; [|done]. intros Hraise. by apply assemble_not_NoUsableRows in Hraise.
Qed.

(** The claim C5 fails on a diary of unparsed text: no timestamp of it
    parses, and the conversion returns a table. *)
Lemma no_usable_rows_counterexample :
  Forall (λ r : Row, out_bed_dt r = None ∧ in_bed_dt r = None)
         (add_datetime_columns Strptime.to_datetime "%m/%d/%y %H:%M" unparsed_diary)
  ∧ convert_sleeplog_in_memory Strptime.to_datetime unparsed_diary
      [mkSegment "b.GT3X" None None] 12 "%m/%d/%y %H:%M" =
    Ok {| columns := ["ID"]; data := [["b.GT3X"]] |}.
Proof. split; [|by vm_compute]. repeat constructor. Qed.

(** C9. The header and the values of a row have the same length, one more
    than three times the number of calendar dates in the segment's range; so
    the header of an assembled table is the header of one of its segments as
    it was built, with no blank label added. *)
Theorem row_lengths (segment_id : string) (cal : Calendar)
    (start_bound end_bound : option string) (seg : Segment) (others : list Segment) :
  let n := size (filter (in_range start_bound end_bound) (dom cal)) in
  (∃ header values,
     build_wide_row segment_id cal start_bound end_bound = Ok (header, values)
     ∧ length header = 1 + 3 * n
     ∧ length values = 1 + 3 * n)
  ∧ (∃ df s header values,
       assemble (seg :: others) cal = Ok df
       ∧ s ∈ seg :: others
       ∧ build_wide_row (id s) cal (start_date s) (end_date s) = Ok (header, values)
       ∧ columns df = header).
Proof.
  intros n. split.
  - eexists _, _. split; [apply build_wide_row_spec|].
    by rewrite length_header_of, length_values_of, length_segment_dates.
  - destruct (assemble_cons cal seg others) as [Hdf _].
    destruct (max_len_from_spec (row_header cal seg) (map (row_header cal) others))
      as (k & Hk & _).
    change (row_header cal seg :: map (row_header cal) others)
      with (map (row_header cal) (seg :: others)) in Hk.
    rewrite list_lookup_fmap in Hk.
    destruct ((seg :: others) !! k) as [s|] eqn:Hs; [|done]. injection Hk as Hk.
    eexists _, s, _, _. split; [exact Hdf|]. split; [by eapply list_elem_of_lookup_2|].
    split; [apply build_wide_row_spec|]. cbn [columns]. by rewrite <- Hk.
Qed.

(** C10. An empty-string bound is an absent bound: the row is the one built
    without that bound, and the dates kept are those the other bound lets
    through, although no non-empty date is below or equal to the empty
    string. *)
Theorem empty_bound_is_absent (segment_id : string) (cal : Calendar)
    (start_date end_date : option string) :
  build_wide_row segment_id cal (Some "") end_date = build_wide_row segment_id cal None end_date
  ∧ build_wide_row segment_id cal start_date (Some "") = build_wide_row segment_id cal start_date None
  ∧ (∀ d, d ∈ segment_dates cal (Some "") end_date ↔
          d ∈ dom cal ∧ match end_date with Some e => e = "" ∨ String.le d e | None => True end)
  ∧ (∀ d, d ∈ segment_dates cal start_date (Some "") ↔
          d ∈ dom cal ∧ match start_date with Some s => s = "" ∨ String.le s d | None => True end)
  ∧ (∀ d, d ≠ "" → ¬ String.le d "")
  ∧ build_wide_row "b.GT3X" (<["2025-01-01" := {["inbed" := "01:30:00"]}]> (∅ : Calendar))
      (Some "") (Some "") =
    Ok (["ID"; "D1_date"; "D1_wakeup"; "D1_inbed"], ["b.GT3X"; "2025-01-01"; ""; "01:30:00"]).
Proof.
  split; [done|]. split; [done|]. split; [|split; [|split; [|by vm_compute]]].
  - intros d. rewrite elem_of_segment_dates. unfold in_range, lower_ok, upper_ok. tauto.
  - intros d. rewrite elem_of_segment_dates. unfold in_range, lower_ok, upper_ok. tauto.
  - intros [|c d] Hne; [done|]. by intros Hle.
Qed.

(** ** Worked runs *)

Lemma first_write_wins_witness :
  place "inbed" "2025-01-01" "23:10:00" (build_calendar_run [first_bedtime] 12) =
    {| calendar := build_calendar [first_bedtime] 12;
       log := [Warning "inbed" "2025-01-01"] |}
  ∧ Warning "inbed" "2025-01-01" ∈ log (build_calendar_run [first_bedtime; second_bedtime] 12)
  ∧ get_field (build_calendar [first_bedtime; second_bedtime] 12) "2025-01-01" "inbed" =
    Some "01:30:00".
Proof.
  destruct (first_write_wins 12 (build_calendar_run [first_bedtime] 12) second_bedtime
              [second_bedtime] "2025-01-01" "inbed" "01:30:00" "23:10:00" eq_refl)
    as (Hplace & Hrow & Hrun).
  split; [exact Hplace|]. split; [|exact Hrun].
  apply Hrow. right. split; [reflexivity|].
  exists (Timestamp.make 2025 1 1 23 10 0). split; reflexivity.
Defined.

(** The two episodes run through the builder: the first bedtime is kept and
    the second is reported. *)
Example duplicate_bedtime_run :
  build_calendar_run [first_bedtime; second_bedtime] 12 =
  {| calendar := {["2025-01-01" := {["inbed" := "01:30:00"]}]};
     log := [Warning "inbed" "2025-01-01"] |}.
Proof. by vm_compute. Qed.

(** The whole conversion on the worked diary. *)
Example convert_diary :
  convert_sleeplog_in_memory Strptime.to_datetime diary three_segments 12 "%m/%d/%y %H:%M" =
  Ok {| columns :=
          ["ID"; "D1_date"; "D1_wakeup"; "D1_inbed"; "D2_date"; "D2_wakeup"; "D2_inbed";
           "D3_date"; "D3_wakeup"; "D3_inbed"; "D4_date"; "D4_wakeup"; "D4_inbed"];
        data :=
          [["a.GT3X"; "2025-01-02"; "07:15:00"; "23:10:00"; "2025-01-03"; "06:50:00"; "";
            ""; ""; ""; ""; ""; ""];
           ["b.GT3X"; "2025-01-01"; ""; "01:30:00"; "2025-01-02"; "07:15:00"; "23:10:00";
            "2025-01-03"; "06:50:00"; ""; "2025-01-05"; "08:00:00"; "13:30:00"];
           ["c.GT3X"; ""; ""; ""; ""; ""; ""; ""; ""; ""; ""; ""; ""]] |}.
Proof. by vm_compute. Qed.

Example diary_warnings :
  log (build_calendar_run
         (add_datetime_columns Strptime.to_datetime "%m/%d/%y %H:%M" (dropna diary)) 12) =
  [Warning "wakeup" "2025-01-02"; Warning "inbed" "2025-01-01"].
Proof. by vm_compute. Qed.

(** * Further properties *)

(** ** Identifiers *)

Lemma list_ascii_of_string_app s1 s2 :
  String.list_ascii_of_string (s1 +:+ s2) =
  String.list_ascii_of_string s1 ++ String.list_ascii_of_string s2.
Proof. induction s1 as [|c s1 IH]; simpl; [done|]. by rewrite IH. Qed.

Lemma sanitise_id_chars raw_id :
  String.list_ascii_of_string (sanitise_id raw_id) =
  filter (λ c, c ≠ "/"%char) (String.list_ascii_of_string raw_id).
Proof.
  unfold sanitise_id. induction raw_id as [|c s IH]; simpl; [done|].
  rewrite filter_cons. destruct (decide (c = "/"%char)) as [->|Hc].
  - rewrite decide_False by (by intros H; apply H). done.
  - rewrite decide_True by done. simpl. by rewrite IH.
Qed.

Lemma sanitise_id_no_slash raw_id :
  "/"%char ∉ String.list_ascii_of_string (sanitise_id raw_id).
Proof.
  rewrite sanitise_id_chars. intros [Hc _]%list_elem_of_filter. by apply Hc.
Qed.

(** X1. [sanitise_id] removes every slash and nothing else: its result is
    the other characters of the identifier, in their order, and holds no
    slash. *)
Theorem sanitise_id_removes_slashes (raw_id : string) :
  String.list_ascii_of_string (sanitise_id raw_id) =
    filter (λ c, c ≠ "/"%char) (String.list_ascii_of_string raw_id)
  ∧ "/"%char ∉ String.list_ascii_of_string (sanitise_id raw_id).
Proof.
  split; [apply sanitise_id_chars|apply sanitise_id_no_slash].
Qed.

Lemma sanitise_id_fixed raw_id :
  sanitise_id raw_id = raw_id ↔ "/"%char ∉ String.list_ascii_of_string raw_id.
Proof.
  unfold sanitise_id.
  induction raw_id as [|c s IH]; cbn [replace_char String.list_ascii_of_string].
  - split; [intros _; apply not_elem_of_nil|done].
  - rewrite not_elem_of_cons. destruct (decide (c = "/"%char)) as [->|Hc].
    + cbv beta iota. split; [|by intros [? _]]. intros Heq. exfalso.
      assert (Hin : "/"%char ∈ String.list_ascii_of_string (sanitise_id s)).
      { unfold sanitise_id. change ("" +:+ ?x) with x in Heq. rewrite Heq. simpl. left. }
      by apply (sanitise_id_no_slash s) in Hin.
    + cbv beta iota. split.
      * intros [= Heq]. split; [congruence|]. by apply IH.
      * intros [_ Hs]. f_equal. by apply IH.
Qed.

(** X2. Sanitising is idempotent, leaves an identifier unchanged exactly when
    it holds no slash, and goes through concatenation. *)
Theorem sanitise_id_idempotent (raw_id other : string) :
  sanitise_id (sanitise_id raw_id) = sanitise_id raw_id
  ∧ (sanitise_id raw_id = raw_id ↔ "/"%char ∉ String.list_ascii_of_string raw_id)
  ∧ sanitise_id (raw_id +:+ other) = sanitise_id raw_id +:+ sanitise_id other.
Proof.
  split; [|split].
  - apply sanitise_id_fixed, sanitise_id_no_slash.
  - apply sanitise_id_fixed.
  - unfold sanitise_id. induction raw_id as [|c s IH]; simpl; [done|].
    case_decide; simpl; by rewrite IH.
Qed.

(** X3. The name of the output file holds no path separator, whatever the
    participant identifier, and ends with the fixed suffix. *)
Theorem output_file_name_safe (participant_id : string) :
  ("/"%char ∉ String.list_ascii_of_string (output_file_name participant_id))
  ∧ (∃ stem, output_file_name participant_id = (stem +:+ "_sleeplog_advanced.csv")
             ∧ "/"%char ∉ String.list_ascii_of_string stem).
Proof.
  pose proof (sanitise_id_no_slash participant_id) as Hid.
  split; [|by exists (sanitise_id participant_id)].
  unfold output_file_name. rewrite list_ascii_of_string_app, not_elem_of_app.
  split; [done|]. vm_compute. intros Hin.
  repeat (apply elem_of_cons in Hin as [Hin|Hin]; [discriminate Hin|]).
  by apply elem_of_nil in Hin.
Qed.

(** ** The calendar builder as placements *)

Lemma build_calendar_row_placements noon st row :
  build_calendar_row noon st row = place_all st (placements_of_row noon row).
Proof.
  unfold build_calendar_row, placements_of_row, place_all.
  by destruct (out_bed_dt row), (in_bed_dt row).
Qed.

Lemma place_all_app st ps1 ps2 : place_all st (ps1 ++ ps2) = place_all (place_all st ps1) ps2.
Proof. apply fold_left_app. Qed.

Lemma build_calendar_from_placements noon st df :
  build_calendar_from noon st df = place_all st (placements noon df).
Proof.
  revert st. induction df as [|row df IH]; intros st; [done|].
  unfold placements. simpl. rewrite place_all_app, <- build_calendar_row_placements.
  apply IH.
Qed.

Lemma place_all_cons st f d t ps :
  place_all st ((f, d, t) :: ps) = place_all (place f d t st) ps.
Proof. done. Qed.

Lemma get_field_place_all st ps d f :
  get_field (calendar (place_all st ps)) d f =
  match get_field (calendar st) d f with
  | Some v => Some v
  | None => first_placed ps d f
  end.
Proof.
  revert st. induction ps as [|[[f' d'] t] ps IH]; intros st.
  - simpl. by destruct (get_field (calendar st) d f).
  - rewrite place_all_cons, IH, get_field_place. cbn [first_placed]. unfold target. simpl.
    destruct (decide (d = d' ∧ f = f')) as [[-> ->]|Hne].
    + rewrite decide_True by done. by destruct (get_field (calendar st) d' f').
    + rewrite decide_False by (intros [= -> ->]; by apply Hne).
      done.
Qed.

Lemma log_place_all (st : State) (ps : list (string * string * string))
    (seen : gset (string * string)) :
  (∀ d f, (d, f) ∈ seen ↔ is_Some (get_field (calendar st) d f)) →
  log (place_all st ps) = log st ++ repeats seen ps.
Proof.
  revert st seen. induction ps as [|[[f' d'] t] ps IH]; intros st seen Hseen.
  - simpl. by rewrite app_nil_r.
  - rewrite place_all_cons. cbn [repeats]. unfold target. cbn [fst snd].
    destruct (decide ((d', f') ∈ seen)) as [Hin|Hout].
    + apply Hseen in Hin. rewrite (place_collision f' d' t st Hin).
      rewrite (IH _ seen) by done. simpl. by rewrite <- app_assoc.
    + assert (Hfree : get_field (calendar st) d' f' = None).
      { apply eq_None_not_Some. by rewrite <- Hseen. }
      rewrite (IH _ ({[(d', f')]} ∪ seen)).
      * by rewrite place_fresh_log.
      * intros d f. rewrite get_field_place, elem_of_union, elem_of_singleton, Hseen.
        case_decide as Hc.
        -- destruct Hc as [-> ->]. split; [eauto|]. by left.
        -- split; [intros [[= -> ->]|?]; [by destruct Hc|done]|by right].
Qed.

Lemma get_field_empty d f : get_field ∅ d f = None.
Proof. unfold get_field. by rewrite lookup_empty. Qed.

Lemma get_field_build_calendar df noon d f :
  get_field (build_calendar df noon) d f = first_placed (placements noon df) d f.
Proof.
  unfold build_calendar, build_calendar_run.
  rewrite build_calendar_from_placements, get_field_place_all.
  cbn [calendar]. by rewrite get_field_empty.
Qed.

(** X4. For every date and field the calendar holds the clock time of the
    first placement made on them, the episodes taken in their order and the
    wakeup of an episode before its bedtime. *)
Theorem calendar_holds_first_placement (df : list Row) (noon_cutoff : Z)
    (cal_date field : string) :
  get_field (build_calendar df noon_cutoff) cal_date field =
  first_placed (placements noon_cutoff df) cal_date field.
Proof. apply get_field_build_calendar. Qed.

(** X5. The log of a run is the list, in order, of one warning for every
    placement whose date and field an earlier placement had written, and
    nothing else. *)
Theorem warnings_are_the_repeated_placements (df : list Row) (noon_cutoff : Z) :
  log (build_calendar_run df noon_cutoff) = repeats ∅ (placements noon_cutoff df).
Proof.
  unfold build_calendar_run. rewrite build_calendar_from_placements.
  rewrite (log_place_all _ _ ∅); [done|].
  intros d f. split; [by intros ?%elem_of_empty|by intros [? ?]].
Qed.

Lemma elem_of_placements noon df f d t :
  (f, d, t) ∈ placements noon df ↔
  ∃ row dt, row ∈ df ∧ t = fmt_time dt
    ∧ ((f = "wakeup" ∧ out_bed_dt row = Some dt ∧ d = calendar_date_for_wakeup dt)
       ∨ (f = "inbed" ∧ in_bed_dt row = Some dt ∧ d = calendar_date_for_inbed dt noon)).
Proof.
  unfold placements. rewrite list_elem_of_In, in_flat_map. split.
  - intros (row & Hrow%list_elem_of_In & Hp%list_elem_of_In).
    unfold placements_of_row in Hp. apply elem_of_app in Hp as [Hp|Hp].
    + destruct (out_bed_dt row) as [dt|] eqn:Hdt; [|by apply elem_of_nil in Hp].
      apply list_elem_of_singleton in Hp as [= -> -> ->]. exists row, dt. eauto 10.
    + destruct (in_bed_dt row) as [dt|] eqn:Hdt; [|by apply elem_of_nil in Hp].
      apply list_elem_of_singleton in Hp as [= -> -> ->]. exists row, dt. eauto 10.
  - intros (row & dt & Hrow & -> & [(-> & Hdt & ->)|(-> & Hdt & ->)]);
      exists row; (split; [by apply list_elem_of_In|]); apply list_elem_of_In;
      unfold placements_of_row; rewrite Hdt; apply elem_of_app.
    + left. by apply list_elem_of_singleton.
    + right. by apply list_elem_of_singleton.
Qed.

Lemma first_placed_Some ps d f v :
  first_placed ps d f = Some v → (f, d, v) ∈ ps.
Proof.
  induction ps as [|[[f' d'] t] ps IH]; simpl; [done|]. unfold target. simpl.
  case_decide as Hc.
  - injection Hc as -> ->. intros [= ->]. left.
  - intros Hv. right. by apply IH.
Qed.

Lemma first_placed_is_Some ps d f :
  is_Some (first_placed ps d f) ↔ (d, f) ∈ target <$> ps.
Proof.
  induction ps as [|p ps IH]; simpl.
  - split; [by intros [? ?]|by intros ?%elem_of_nil].
  - rewrite elem_of_cons, <- IH. case_decide as Hc.
    + split; [by left|eauto].
    + split; [by right|]. intros [Heq|?]; [by destruct Hc|done].
Qed.

Lemma get_field_is_Some_assigns df noon d f :
  is_Some (get_field (build_calendar df noon) d f) ↔ ∃ row, row ∈ df ∧ assigns noon row d f.
Proof.
  rewrite get_field_build_calendar, first_placed_is_Some, list_elem_of_fmap. split.
  - intros ([[f' d'] t] & [= -> ->] & Hp).
    apply elem_of_placements in Hp as (row & dt & Hrow & _ & Hcase).
    exists row. split; [done|]. unfold assigns.
    destruct Hcase as [(-> & Hdt & ->)|(-> & Hdt & ->)]; [left|right]; eauto.
  - intros (row & Hrow & [(-> & dt & Hdt & <-)|(-> & dt & Hdt & <-)]).
    + exists ("wakeup", calendar_date_for_wakeup dt, fmt_time dt). split; [done|].
      apply elem_of_placements. exists row, dt. eauto 10.
    + exists ("inbed", calendar_date_for_inbed dt noon, fmt_time dt).
      split; [done|]. apply elem_of_placements. exists row, dt. eauto 10.
Qed.

(** X6. The calendar holds nothing that the episodes did not bring: a field
    of a date is set exactly when an episode assigns to it, and the value it
    holds is the clock time of such an episode. *)
Theorem calendar_fields_come_from_episodes (df : list Row) (noon_cutoff : Z)
    (cal_date field : string) :
  (is_Some (get_field (build_calendar df noon_cutoff) cal_date field)
   ↔ ∃ row, row ∈ df ∧ assigns noon_cutoff row cal_date field)
  ∧ (∀ value, get_field (build_calendar df noon_cutoff) cal_date field = Some value →
       ∃ row dt, row ∈ df ∧ value = fmt_time dt
         ∧ ((field = "wakeup" ∧ out_bed_dt row = Some dt
             ∧ cal_date = calendar_date_for_wakeup dt)
            ∨ (field = "inbed" ∧ in_bed_dt row = Some dt
               ∧ cal_date = calendar_date_for_inbed dt noon_cutoff))).
Proof.
  split; [apply get_field_is_Some_assigns|]. rewrite get_field_build_calendar.
  intros value Hv%first_placed_Some. by apply elem_of_placements in Hv.
Qed.

(** ** Counting fields and warnings *)

Lemma place_calendar f d t st :
  calendar (place f d t st) =
  if decide (is_Some (get_field (calendar st) d f)) then calendar st
  else <[d := <[f := t]> (default ∅ (calendar st !! d))]> (calendar st).
Proof.
  case_decide as Hset; [by rewrite place_collision|].
  unfold place, setdefault. unfold get_field in Hset.
  destruct (calendar st !! d) as [entry|] eqn:Hd; simpl in *.
  - by rewrite decide_False.
  - rewrite decide_False by (rewrite lookup_empty; by intros [? ?]).
    simpl. by rewrite insert_insert_eq.
Qed.

Lemma sum_list_Permutation l1 l2 : l1 ≡ₚ l2 → sum_list l1 = sum_list l2.
Proof. induction 1; simpl; lia. Qed.

Lemma fields_set_cons d (entry : gmap string string) (l : list (string * gmap string string)) :
  sum_list ((λ de, size de.2) <$> (d, entry) :: l) =
  size entry + sum_list ((λ de, size de.2) <$> l).
Proof. done. Qed.

Lemma fields_set_insert (cal : Calendar) d (entry : gmap string string) :
  fields_set (<[d := entry]> cal) + size (default ∅ (cal !! d)) = fields_set cal + size entry.
Proof.
  unfold fields_set. destruct (cal !! d) as [old|] eqn:Hd; cbn [default].
  - rewrite <- (insert_delete_eq cal d entry).
    rewrite (sum_list_Permutation _ _
      (fmap_Permutation _ _ _ (map_to_list_insert (delete d cal) d entry
                                 (lookup_delete_eq cal d)))).
    rewrite <- (sum_list_Permutation _ _
      (fmap_Permutation _ _ _ (map_to_list_delete cal d old Hd))).
    rewrite !fields_set_cons. unfold Datatypes.id. lia.
  - rewrite (sum_list_Permutation _ _
      (fmap_Permutation _ _ _ (map_to_list_insert cal d entry Hd))).
    rewrite fields_set_cons, map_size_empty. lia.
Qed.

Lemma place_count f d t st :
  length (log (place f d t st)) + fields_set (calendar (place f d t st)) =
  S (length (log st) + fields_set (calendar st)).
Proof.
  destruct (decide (is_Some (get_field (calendar st) d f))) as [Hset|Hfree].
  - rewrite place_collision by done. simpl. rewrite length_app. simpl. lia.
  - rewrite place_fresh_log by (by apply eq_None_not_Some).
    rewrite place_calendar, decide_False by done.
    pose proof (fields_set_insert (calendar st) d
                  (<[f := t]> (default ∅ (calendar st !! d)))) as Hins.
    rewrite map_size_insert_None in Hins; [lia|].
    unfold get_field in Hfree. destruct (calendar st !! d); simpl in *.
    + by apply eq_None_not_Some.
    + apply lookup_empty.
Qed.

Lemma place_all_count st ps :
  length (log (place_all st ps)) + fields_set (calendar (place_all st ps)) =
  length (log st) + fields_set (calendar st) + length ps.
Proof.
  revert st. induction ps as [|[[f d] t] ps IH]; intros st; [simpl; lia|].
  rewrite place_all_cons, IH, place_count. simpl. lia.
Qed.

Lemma length_placements noon df :
  length (placements noon df) = sum_list (timestamps_present <$> df).
Proof.
  unfold placements. induction df as [|row df IH]; [done|].
  simpl. rewrite length_app, IH. f_equal.
  unfold placements_of_row, timestamps_present.
  by destruct (out_bed_dt row), (in_bed_dt row).
Qed.

(** X7. Every timestamp of the diary is accounted for: the number of fields
    the calendar holds and the number of warnings logged add up to the
    number of timestamps present in the episodes. *)
Theorem every_timestamp_is_stored_or_reported (df : list Row) (noon_cutoff : Z) :
  fields_set (build_calendar df noon_cutoff)
  + length (log (build_calendar_run df noon_cutoff))
  = sum_list (timestamps_present <$> df).
Proof.
  unfold build_calendar, build_calendar_run.
  rewrite build_calendar_from_placements.
  pose proof (place_all_count {| calendar := ∅; log := [] |} (placements noon_cutoff df)) as H.
  rewrite length_placements in H. simpl in H.
  unfold fields_set at 2 in H. rewrite map_to_list_empty in H. simpl in H. lia.
Qed.

(** ** The entries of the calendar *)

Lemma place_well_formed f d t st :
  f = "wakeup" ∨ f = "inbed" →
  entries_well_formed (calendar st) → entries_well_formed (calendar (place f d t st)).
Proof.
  intros Hf Hwf. rewrite place_calendar. case_decide as Hset; [done|].
  intros d' entry. destruct (decide (d' = d)) as [->|Hne].
  - rewrite lookup_insert_eq. intros [= <-]. split; [apply insert_non_empty|].
    intros f' Hf'. destruct (decide (f' = f)) as [->|Hnf]; [done|].
    rewrite lookup_insert_ne in Hf' by done.
    destruct (calendar st !! d) as [old|] eqn:Hd; simpl in Hf'.
    + by apply (Hwf d old Hd).
    + rewrite lookup_empty in Hf'. by destruct Hf'.
  - rewrite lookup_insert_ne by done. apply Hwf.
Qed.

Lemma place_all_well_formed st ps :
  Forall (λ p, p.1.1 = "wakeup" ∨ p.1.1 = "inbed") ps →
  entries_well_formed (calendar st) → entries_well_formed (calendar (place_all st ps)).
Proof.
  intros Hps. revert st. induction Hps as [|[[f d] t] ps Hp _ IH]; intros st Hwf; [done|].
  rewrite place_all_cons. apply IH. by apply place_well_formed.
Qed.

Lemma placements_fields noon df :
  Forall (λ p, p.1.1 = "wakeup" ∨ p.1.1 = "inbed") (placements noon df).
Proof.
  apply Forall_forall. intros [[f d] t] Hp.
  apply elem_of_placements in Hp as (row & dt & _ & _ & [(-> & _)|(-> & _)]); simpl; auto.
Qed.

Lemma build_calendar_well_formed df noon : entries_well_formed (build_calendar df noon).
Proof.
  unfold build_calendar, build_calendar_run. rewrite build_calendar_from_placements.
  apply place_all_well_formed; [apply placements_fields|].
  intros d entry Hd. simpl in Hd. by rewrite lookup_empty in Hd.
Qed.

Lemma elem_of_dom_build_calendar df noon d :
  d ∈ dom (build_calendar df noon) ↔ ∃ row field, row ∈ df ∧ assigns noon row d field.
Proof.
  pose proof (build_calendar_well_formed df noon) as Hwf.
  rewrite elem_of_dom. split.
  - intros [entry Hentry]. destruct (Hwf _ _ Hentry) as [Hne _].
    apply map_choose in Hne as (f & v & Hv).
    assert (Hset : is_Some (get_field (build_calendar df noon) d f)).
    { unfold get_field. rewrite Hentry. simpl. eauto. }
    apply get_field_is_Some_assigns in Hset as (row & Hrow & Hassigns). eauto.
  - intros (row & f & Hrow & Hassigns).
    assert (Hset : is_Some (get_field (build_calendar df noon) d f)).
    { apply get_field_is_Some_assigns. eauto. }
    unfold get_field in Hset.
    destruct (build_calendar df noon !! d); [eauto|]. by destruct Hset.
Qed.

(** X8. Every entry of the calendar has a wakeup or a bedtime and no other
    field; so a date is a key of the calendar exactly when an episode assigns
    a wakeup or a bedtime to it. *)
Theorem calendar_entries_are_never_empty (df : list Row) (noon_cutoff : Z) (cal_date : string) :
  (∀ entry, build_calendar df noon_cutoff !! cal_date = Some entry →
     entry ≠ ∅ ∧ dom entry ⊆ {["wakeup"; "inbed"]})
  ∧ (cal_date ∈ dom (build_calendar df noon_cutoff)
     ↔ ∃ row field, row ∈ df ∧ assigns noon_cutoff row cal_date field).
Proof.
  pose proof (build_calendar_well_formed df noon_cutoff) as Hwf.
  split; [|apply elem_of_dom_build_calendar].
  intros entry Hentry. destruct (Hwf _ _ Hentry) as [Hne Hfields]. split; [done|].
  intros f Hf%elem_of_dom. apply elem_of_union. rewrite !elem_of_singleton.
  by apply Hfields.
Qed.

(** ** The order of the episodes *)




Lemma placements_Permutation noon df df' :
  df ≡ₚ df' → placements noon df ≡ₚ placements noon df'.
Proof. intros Hperm. unfold placements. by apply Permutation_flat_map. Qed.




Lemma repeats_nil (seen : gset (string * string)) (ps : list (string * string * string)) :
  repeats seen ps = [] ↔ NoDup (target <$> ps) ∧ ∀ k, k ∈ target <$> ps → k ∉ seen.
Proof.
  revert seen. induction ps as [|p ps IH]; intros seen; cbn [repeats fmap list_fmap].
  - split; [|done]. intros _. split; [constructor|]. by intros k ?%elem_of_nil.
  - case_decide as Hseen.
    + split; [done|]. intros [_ Hall]. exfalso. apply (Hall (target p)); [left|done].
    + rewrite IH, NoDup_cons. split.
      * intros [Hnd Hall]. split; [split; [|done]|].
        -- intros Hin. apply (Hall _ Hin). apply elem_of_union. left.
           by apply elem_of_singleton.
        -- intros k [->|Hk]%elem_of_cons; [done|].
           intros Hks. apply (Hall k Hk). apply elem_of_union. by right.
      * intros [[Hp Hnd] Hall]. split; [done|]. intros k Hk.
        rewrite elem_of_union, elem_of_singleton. intros [->|Hks]; [done|].
        apply (Hall k); [by right|done].
Qed.

Lemma first_placed_NoDup ps d f v :
  NoDup (target <$> ps) → (first_placed ps d f = Some v ↔ (f, d, v) ∈ ps).
Proof.
  intros Hnd. split; [apply first_placed_Some|].
  induction ps as [|p ps IH]; [by intros ?%elem_of_nil|].
  apply NoDup_cons in Hnd as [Hp Hnd]. cbn [first_placed].
  intros [<-|Hin]%elem_of_cons.
  - by rewrite decide_True.
  - rewrite decide_False; [by apply IH|].
    intros Heq. apply Hp. rewrite Heq.
    by apply (list_elem_of_fmap_2 target) in Hin.
Qed.

Lemma calendar_ext (cal1 cal2 : Calendar) :
  entries_well_formed cal1 → entries_well_formed cal2 →
  (∀ d f, get_field cal1 d f = get_field cal2 d f) → cal1 = cal2.
Proof.
  intros Hwf1 Hwf2 Hfields. apply map_eq. intros d.
  destruct (cal1 !! d) as [e1|] eqn:H1, (cal2 !! d) as [e2|] eqn:H2; [| | |done].
  - f_equal. apply map_eq. intros f. specialize (Hfields d f).
    unfold get_field in Hfields. by rewrite H1, H2 in Hfields.
  - destruct (Hwf1 _ _ H1) as [Hne _]. apply map_choose in Hne as (f & v & Hv).
    specialize (Hfields d f). unfold get_field in Hfields.
    rewrite H1, H2 in Hfields. simpl in Hfields. congruence.
  - destruct (Hwf2 _ _ H2) as [Hne _]. apply map_choose in Hne as (f & v & Hv).
    specialize (Hfields d f). unfold get_field in Hfields.
    rewrite H1, H2 in Hfields. simpl in Hfields. congruence.
Qed.

Lemma log_run_nil df noon :
  log (build_calendar_run df noon) = [] ↔ NoDup (target <$> placements noon df).
Proof.
  unfold build_calendar_run. rewrite build_calendar_from_placements.
  rewrite (log_place_all _ _ ∅).
  - cbn [log app]. rewrite repeats_nil. split; [by intros [? _]|].
    intros Hnd. split; [done|]. intros k _. apply not_elem_of_empty.
  - intros d f. cbn [calendar]. rewrite get_field_empty.
    split; [by intros ?%elem_of_empty|by intros [? ?]].
Qed.

(** X10. A diary that logs no warning gives the same calendar, and again no
    warning, whatever the order of its episodes. *)
Theorem calendar_without_warnings_is_order_independent (df df' : list Row) (noon_cutoff : Z) :
  log (build_calendar_run df noon_cutoff) = [] → df ≡ₚ df' →
  build_calendar df' noon_cutoff = build_calendar df noon_cutoff
  ∧ log (build_calendar_run df' noon_cutoff) = [].
Proof.
  intros Hlog Hperm. apply log_run_nil in Hlog.
  pose proof (placements_Permutation noon_cutoff df df' Hperm) as Hps.
  assert (Hnd' : NoDup (target <$> placements noon_cutoff df')) by (by rewrite <- Hps).
  split; [|by apply log_run_nil].
  apply calendar_ext; [apply build_calendar_well_formed..|].
  intros d f. rewrite !get_field_build_calendar. apply option_eq. intros v.
  rewrite !first_placed_NoDup by done. by rewrite Hps.
Qed.

Lemma calendar_without_warnings_witness :
  build_calendar
    [mkRow (mkSourceRow None None None) None (Some (Timestamp.make 2025 1 3 22 0 0));
     first_bedtime] 12
  = build_calendar
      [first_bedtime;
       mkRow (mkSourceRow None None None) None (Some (Timestamp.make 2025 1 3 22 0 0))] 12.
Proof.
  refine (proj1 (calendar_without_warnings_is_order_independent
    [first_bedtime;
     mkRow (mkSourceRow None None None) None (Some (Timestamp.make 2025 1 3 22 0 0))]
    [mkRow (mkSourceRow None None None) None (Some (Timestamp.make 2025 1 3 22 0 0));
     first_bedtime] 12 _ (Permutation_swap _ _ _))).
  vm_compute. reflexivity.
Defined.

(** X11. An episode without any timestamp leaves the calendar and the log as
    they are: the run over the episodes that have one is the run over all. *)
Theorem episodes_without_timestamps_are_ignored (df : list Row) (noon_cutoff : Z) :
  build_calendar_run
    (filter (λ row, is_Some (out_bed_dt row) ∨ is_Some (in_bed_dt row)) df) noon_cutoff
  = build_calendar_run df noon_cutoff.
Proof.
  unfold build_calendar_run. rewrite !build_calendar_from_placements. f_equal.
  unfold placements. induction df as [|row df IH]; [done|].
  rewrite filter_cons. case_decide as Hrow; simpl; [by rewrite IH|].
  rewrite IH. unfold placements_of_row.
  destruct (out_bed_dt row), (in_bed_dt row); try done; exfalso; apply Hrow; eauto.
Qed.

(** ** The outcomes of the conversion *)

Lemma list_filter_all {A} (P : A → Prop) `{∀ x, Decision (P x)} (l : list A) :
  (∀ x, x ∈ l → P x) → filter P l = l.
Proof.
  induction l as [|x l IH]; intros Hall; [done|].
  rewrite filter_cons, decide_True by (apply Hall; left).
  f_equal. apply IH. intros y Hy. apply Hall. by right.
Qed.

Lemma filter_start_filter start_bound dates :
  filter_start start_bound dates = filter (lower_ok start_bound) dates.
Proof.
  unfold filter_start, lower_ok. destruct start_bound as [s|].
  - case_bool_decide as Hs.
    + symmetry. apply list_filter_all. intros d _. by left.
    + apply list_filter_iff. intros d. split; [by right|]. by intros [?|?].
  - symmetry. by apply list_filter_all.
Qed.

Lemma filter_end_filter end_bound dates :
  filter_end end_bound dates = filter (upper_ok end_bound) dates.
Proof.
  unfold filter_end, upper_ok. destruct end_bound as [e|].
  - case_bool_decide as He.
    + symmetry. apply list_filter_all. intros d _. by left.
    + apply list_filter_iff. intros d. split; [by right|]. by intros [?|?].
  - symmetry. by apply list_filter_all.
Qed.

Lemma segment_dates_filter cal start_bound end_bound :
  segment_dates cal start_bound end_bound =
  filter (in_range start_bound end_bound) (sorted_keys cal).
Proof.
  unfold segment_dates. rewrite filter_end_filter, filter_start_filter, list_filter_filter.
  apply list_filter_iff. intros d. unfold in_range. tauto.
Qed.

Lemma max_len_from_header_of n ns :
  max_len_from (header_of n) (header_of <$> ns) = header_of (max_list (n :: ns)).
Proof.
  revert n. induction ns as [|m ns IH]; intros n; cbn [max_len_from fmap list_fmap].
  - simpl. by rewrite Nat.max_0_r.
  - rewrite !length_header_of.
    destruct (Nat.ltb_spec (1 + 3 * n) (1 + 3 * m)); rewrite IH; f_equal; simpl; lia.
Qed.

Lemma header_of_prefix n m : n ≤ m → header_of n `prefix_of` header_of m.
Proof.
  intros Hnm. exists (flat_map date_header (seq (1 + n) (m - n))).
  unfold header_of. cbn [app]. f_equal.
  replace m with (n + (m - n)) at 1 by lia.
  by rewrite seq_app, flat_map_app.
Qed.

Lemma assemble_cons_table cal seg others :
  assemble (seg :: others) cal =
  Ok {| columns := header_of (max_list (dates_in cal <$> seg :: others));
        data := (λ s, pad (1 + 3 * max_list (dates_in cal <$> seg :: others))
                          (row_values cal s)) <$> seg :: others |}.
Proof.
  destruct (assemble_cons cal seg others) as [-> Hwidth].
  assert (Hcols : max_len_from (row_header cal seg) (map (row_header cal) others)
                  = header_of (max_list (dates_in cal <$> seg :: others))).
  { rewrite fmap_cons, <- max_len_from_header_of, <- list_fmap_compose. reflexivity. }
  rewrite Hcols in Hwidth |- *. rewrite length_header_of in Hwidth.
  rewrite <- Hwidth. f_equal. f_equal. rewrite map_map. reflexivity.
Qed.


Lemma pad_row_values cal width s :
  dates_in cal s ≤ width →
  pad (1 + 3 * width) (row_values cal s) =
  values_of (id s) cal (segment_dates cal (start_date s) (end_date s))
  ++ replicate (3 * (width - dates_in cal s)) "".
Proof.
  intros Hle. rewrite pad_spec. unfold row_values. rewrite length_values_of.
  fold (dates_in cal s). f_equal. f_equal. lia.
Qed.

Lemma dates_in_le_max cal s (segments : list Segment) :
  s ∈ segments → dates_in cal s ≤ max_list (dates_in cal <$> segments).
Proof. intros Hs. apply max_list_elem_of_le. by apply list_elem_of_fmap_2. Qed.

(** X13. A successful conversion returns one row per segment, in the order
    of the segments: the segment's id, its date triples, and three empty
    cells for every date it has fewer than the segment with the most dates.
    The columns are [ID] and the labels of that many dates. *)
Theorem conversion_table (to_datetime : string → string → option Timestamp)
    (df : list SourceRow) (seg : Segment) (others : list Segment)
    (noon_cutoff : Z) (datetime_fmt : string) :
  dropna df ≠ [] →
  let cal := build_calendar (add_datetime_columns to_datetime datetime_fmt (dropna df))
                            noon_cutoff in
  let most := max_list (dates_in cal <$> seg :: others) in
  convert_sleeplog_in_memory to_datetime df (seg :: others) noon_cutoff datetime_fmt =
  Ok {| columns := "ID" :: flat_map date_header (seq 1 most);
        data := (λ s, (id s :: flat_map (date_values cal)
                                 (segment_dates cal (start_date s) (end_date s)))
                      ++ replicate (3 * (most - dates_in cal s)) "")
                <$> seg :: others |}.
Proof.
  intros Hdf cal most. unfold convert_sleeplog_in_memory.
  rewrite bool_decide_eq_false_2 by done. fold cal.
  rewrite assemble_cons_table. fold most. f_equal. f_equal.
  apply list_fmap_ext. intros i s Hs%list_elem_of_lookup_2.
  apply pad_row_values. by apply dates_in_le_max.
Qed.

Lemma conversion_table_witness :
  convert_sleeplog_in_memory Strptime.to_datetime diary
    [mkSegment "a.GT3X" (Some "2025-01-05") None; mkSegment "b.GT3X" (Some "2025-01-03") None]
    12 "%m/%d/%y %H:%M" =
  Ok {| columns := ["ID"; "D1_date"; "D1_wakeup"; "D1_inbed";
                    "D2_date"; "D2_wakeup"; "D2_inbed"];
        data := [["a.GT3X"; "2025-01-05"; "08:00:00"; "13:30:00"; ""; ""; ""];
                 ["b.GT3X"; "2025-01-03"; "06:50:00"; ""; "2025-01-05"; "08:00:00"; "13:30:00"]]
     |}.
Proof.
  rewrite (conversion_table Strptime.to_datetime diary
             (mkSegment "a.GT3X" (Some "2025-01-05") None)
             [mkSegment "b.GT3X" (Some "2025-01-03") None] 12 "%m/%d/%y %H:%M");
    [|by vm_compute].
  vm_compute. reflexivity.
Defined.

(** X14. The labels of the table stand above the right cells of every row,
    not only of the longest: the header each segment's row was built with is
    a beginning of the table's columns. *)
Theorem every_row_is_under_its_labels (cal : Calendar) (seg : Segment) (others : list Segment) :
  ∃ table,
    assemble (seg :: others) cal = Ok table
    ∧ Forall (λ s, ∃ header values,
                build_wide_row (id s) cal (start_date s) (end_date s) = Ok (header, values)
                ∧ header `prefix_of` columns table
                ∧ length header = length values)
             (seg :: others).
Proof.
  eexists. split; [apply assemble_cons_table|]. cbn [columns].
  apply Forall_forall. intros s Hs. eexists _, _.
  split; [apply build_wide_row_spec|]. split.
  - apply header_of_prefix. fold (dates_in cal s). by apply dates_in_le_max.
  - by rewrite length_header_of, length_values_of.
Qed.

(** X15. The count [(len(header) - 1) // 3] that the command line logs for a
    segment is the number of calendar dates in the segment's range, and the
    count the page reports for the table's columns is the greatest of them. *)
Theorem reported_date_counts (cal : Calendar) (seg : Segment) (others : list Segment) :
  (∃ header values,
     build_wide_row (id seg) cal (start_date seg) (end_date seg) = Ok (header, values)
     ∧ n_dates header = size (filter (in_range (start_date seg) (end_date seg)) (dom cal)))
  ∧ (∃ table,
       assemble (seg :: others) cal = Ok table
       ∧ n_dates (columns table) = max_list (dates_in cal <$> seg :: others)
       ∧ length (data table) = length (seg :: others)).
Proof.
  assert (Hn : ∀ n, n_dates (header_of n) = n).
  { intros n. unfold n_dates. rewrite length_header_of.
    replace (1 + 3 * n - 1) with (n * 3) by lia. by apply Nat.div_mul. }
  split.
  - eexists _, _. split; [apply build_wide_row_spec|].
    by rewrite Hn, length_segment_dates.
  - eexists. split; [apply assemble_cons_table|]. cbn [columns data].
    by rewrite Hn, length_fmap.
Qed.

(** X16. Padding only adds empty cells at the end: a row is a beginning of
    its padded row, a row already as long as the width is left as it is, and
    padding a padded row changes nothing. *)
Theorem padding_only_appends_blanks (max_cols : nat) (row : list string) :
  row `prefix_of` pad max_cols row
  ∧ (∀ cell, cell ∈ drop (length row) (pad max_cols row) → cell = "")
  ∧ (max_cols ≤ length row → pad max_cols row = row)
  ∧ pad max_cols (pad max_cols row) = pad max_cols row.
Proof.
  rewrite !pad_spec. split; [by eexists|]. split; [|split].
  - rewrite drop_app_length. by intros cell [-> _]%elem_of_replicate.
  - intros Hle. replace (max_cols - length row) with 0 by lia. apply app_nil_r.
  - rewrite length_app, length_replicate.
    replace (max_cols - (length row + (max_cols - length row))) with 0 by lia.
    apply app_nil_r.
Qed.

(** ** Ranges *)

Lemma filter_sublist_mono {A} (P Q : A → Prop) `{∀ x, Decision (P x)} `{∀ x, Decision (Q x)}
    (l : list A) :
  (∀ x, x ∈ l → P x → Q x) → filter P l `sublist_of` filter Q l.
Proof.
  induction l as [|x l IH]; intros Himp; [done|].
  rewrite !filter_cons.
  assert (IH' : filter P l `sublist_of` filter Q l).
  { apply IH. intros y Hy. apply Himp. by right. }
  destruct (decide (P x)) as [HP|HP].
  - rewrite decide_True by (apply Himp; [left|done]). by apply sublist_skip.
  - destruct (decide (Q x)); [by apply sublist_cons|done].
Qed.

(** X17. A segment whose range lies within another's has a sub-sequence of
    its dates, in the same order; every segment has a sub-sequence of the
    dates of the unbounded segment, which are all the keys of the calendar. *)
Theorem nested_ranges (cal : Calendar) (inner_start inner_end outer_start outer_end : option string) :
  (∀ d, d ∈ dom cal → in_range inner_start inner_end d → in_range outer_start outer_end d) →
  segment_dates cal inner_start inner_end `sublist_of` segment_dates cal outer_start outer_end
  ∧ segment_dates cal outer_start outer_end `sublist_of` segment_dates cal None None
  ∧ (∀ d, d ∈ segment_dates cal None None ↔ d ∈ dom cal)
  ∧ length (segment_dates cal None None) = size cal.
Proof.
  intros Hnested. split; [|split; [|split]].
  - rewrite !segment_dates_filter. apply filter_sublist_mono.
    intros d Hd. apply Hnested. by apply elem_of_sorted_keys.
  - rewrite !segment_dates_filter. by apply filter_sublist_mono.
  - intros d. apply elem_of_sorted_keys.
  - rewrite length_segment_dates.
    replace (filter (in_range None None) (dom cal)) with (dom cal).
    + apply size_dom.
    + apply set_eq. intros d. rewrite elem_of_filter. unfold in_range. simpl. tauto.
Qed.

Lemma nested_ranges_witness :
  segment_dates (build_calendar [first_bedtime] 12) (Some "2025-01-01") (Some "2025-01-01")
    `sublist_of`
  segment_dates (build_calendar [first_bedtime] 12) (Some "2024-12-01") None.
Proof.
  refine (proj1 (nested_ranges (build_calendar [first_bedtime] 12)
                   (Some "2025-01-01") (Some "2025-01-01") (Some "2024-12-01") None _)).
  intros d _ [[Hlo|Hlo] [Hhi|Hhi]]; try discriminate.
  assert (d = "2025-01-01") as -> by (by apply (anti_symm String.le)).
  split; [right; exact I|exact I].
Defined.

(** X18. A segment whose two bounds are given with the start after the end
    keeps no date: its row is the id alone under the header [ID]. *)
Theorem inverted_range_row (segment_id : string) (cal : Calendar) (start_bound end_bound : string) :
  start_bound ≠ "" → end_bound ≠ "" → ¬ String.le start_bound end_bound →
  build_wide_row segment_id cal (Some start_bound) (Some end_bound) = Ok (["ID"], [segment_id]).
Proof.
  intros Hs He Hinv. rewrite build_wide_row_spec.
  destruct (segment_dates cal (Some start_bound) (Some end_bound)) as [|d dates] eqn:Hdates;
    [done|].
  assert (Hd : d ∈ segment_dates cal (Some start_bound) (Some end_bound))
    by (rewrite Hdates; left).
  apply elem_of_segment_dates in Hd as [_ [[?|Hlo] [?|Hhi]]]; try done.
  destruct Hinv. by transitivity d.
Qed.

Lemma inverted_range_row_witness :
  build_wide_row "a.GT3X" (build_calendar [first_bedtime; second_bedtime] 12)
    (Some "2025-01-02") (Some "2024-12-31") = Ok (["ID"], ["a.GT3X"]).
Proof.
  apply (inverted_range_row "a.GT3X" (build_calendar [first_bedtime; second_bedtime] 12)
           "2025-01-02" "2024-12-31"); [discriminate|discriminate|].
  intros Hle. exact Hle.
Defined.

(** X19. Without a segments file the command line builds a table of one
    row, the participant's, that holds every date of the calendar and needs
    no padding; with a file it builds the table of the segments read, and
    fails in [max] when the file holds an empty list. *)
Theorem command_line_segments (cal : Calendar) (participant_id : string)
    (segments : list Segment) :
  assemble (cli_segments None participant_id) cal =
    Ok {| columns := "ID" :: flat_map date_header (seq 1 (size cal));
          data := [participant_id :: flat_map (date_values cal) (sorted_keys cal)] |}
  ∧ (∀ d, d ∈ sorted_keys cal ↔ d ∈ dom cal)
  ∧ assemble (cli_segments (Some segments) participant_id) cal = assemble segments cal
  ∧ assemble (cli_segments (Some []) participant_id) cal = Raise MaxEmptySequence.
Proof.
  split; [|split; [apply elem_of_sorted_keys|done]].
  unfold cli_segments. rewrite assemble_cons_table.
  assert (Hn : dates_in cal {| id := participant_id; start_date := None; end_date := None |}
               = size cal).
  { unfold dates_in. cbn [start_date end_date]. rewrite length_segment_dates.
    replace (filter (in_range None None) (dom cal)) with (dom cal); [apply size_dom|].
    apply set_eq. intros d. rewrite elem_of_filter. unfold in_range. simpl. tauto. }
  cbn [fmap list_fmap max_list]. rewrite Hn, Nat.max_0_r. f_equal. f_equal.
  rewrite pad_spec. unfold row_values. cbn [id start_date end_date].
  rewrite length_values_of. change (segment_dates cal None None) with (sorted_keys cal).
  fold (dates_in cal {| id := participant_id; start_date := None; end_date := None |}).
  replace (length (sorted_keys cal)) with (size cal) by (by rewrite <- Hn).
  rewrite Nat.sub_diag. cbn [replicate]. by rewrite app_nil_r.
Qed.

(** ** Date strings and the order of time *)

Lemma forallb_below (P : nat → bool) (bound n : nat) :
  forallb P (seq 0 bound) = true → n < bound → P n = true.
Proof.
  intros Hall Hn. rewrite forallb_forall in Hall. apply Hall, in_seq. lia.
Qed.

Lemma compare_zero_pad_2 n m :
  n < 100 → m < 100 →
  String.compare (Timestamp.zero_pad 2 n) (Timestamp.zero_pad 2 m) = Nat.compare n m.
Proof.
  intros Hn Hm.
  pose proof (forallb_below
    (λ n, forallb (λ m, bool_decide (String.compare (Timestamp.zero_pad 2 n)
                                       (Timestamp.zero_pad 2 m) = Nat.compare n m))
                  (seq 0 100)) 100 n) as Hall.
  cbv beta in Hall. specialize (Hall ltac:(vm_compute; reflexivity) Hn).
  apply (forallb_below _ 100 m) in Hall; [|done]. by apply bool_decide_eq_true in Hall.
Qed.

Lemma length_zero_pad_2 n : n < 100 → String.length (Timestamp.zero_pad 2 n) = 2.
Proof.
  intros Hn.
  pose proof (forallb_below
    (λ n, bool_decide (String.length (Timestamp.zero_pad 2 n) = 2)) 100 n) as Hall.
  cbv beta in Hall. specialize (Hall ltac:(vm_compute; reflexivity) Hn).
  by apply bool_decide_eq_true in Hall.
Qed.

Lemma zero_pad_4_split y :
  y < 100 * 100 →
  Timestamp.zero_pad 4 y = Timestamp.zero_pad 2 (y / 100) +:+ Timestamp.zero_pad 2 (y mod 100).
Proof.
  intros Hy.
  pose proof (forallb_below
    (λ y, bool_decide (Timestamp.zero_pad 4 y =
                       Timestamp.zero_pad 2 (y / 100) +:+ Timestamp.zero_pad 2 (y mod 100)))
    (100 * 100) y) as Hall.
  cbv beta in Hall. specialize (Hall ltac:(vm_compute; reflexivity) Hy).
  by apply bool_decide_eq_true in Hall.
Qed.

Lemma string_app_assoc (s1 s2 s3 : string) : (s1 +:+ s2) +:+ s3 = s1 +:+ (s2 +:+ s3).
Proof.
  induction s1 as [|c s1 IH]; [done|].
  change (String c ((s1 +:+ s2) +:+ s3) = String c (s1 +:+ (s2 +:+ s3))). by f_equal.
Qed.

Lemma compare_app (p1 p2 s1 s2 : string) :
  String.length p1 = String.length p2 →
  String.compare (p1 +:+ s1) (p2 +:+ s2) =
  match String.compare p1 p2 with
  | Eq => String.compare s1 s2
  | c => c
  end.
Proof.
  revert p2. induction p1 as [|c1 p1 IH]; intros [|c2 p2] Hlen; try done.
  change (match Ascii.compare c1 c2 with
          | Eq => String.compare (p1 +:+ s1) (p2 +:+ s2)
          | c => c
          end =
          match match Ascii.compare c1 c2 with
                | Eq => String.compare p1 p2
                | c => c
                end with
          | Eq => String.compare s1 s2
          | c => c
          end).
  destruct (Ascii.compare c1 c2); [|done..].
  apply IH. simpl in Hlen. congruence.
Qed.

Lemma compare_hundreds a b :
  Nat.compare a b =
  match Nat.compare (a / 100) (b / 100) with
  | Eq => Nat.compare (a mod 100) (b mod 100)
  | c => c
  end.
Proof.
  pose proof (Nat.div_mod_eq a 100) as Ha. pose proof (Nat.div_mod_eq b 100) as Hb.
  pose proof (Nat.mod_upper_bound a 100 ltac:(done)) as Hra.
  pose proof (Nat.mod_upper_bound b 100 ltac:(done)) as Hrb.
  revert Ha Hb Hra Hrb.
  generalize (a / 100) (a mod 100) (b / 100) (b mod 100). intros qa ra qb rb -> -> Hra Hrb.
  destruct (Nat.compare_spec qa qb) as [->|Hq|Hq].
  - destruct (Nat.compare_spec ra rb) as [->|Hr|Hr].
    + apply Nat.compare_refl.
    + apply Nat.compare_lt_iff. lia.
    + apply Nat.compare_gt_iff. lia.
  - apply Nat.compare_lt_iff. lia.
  - apply Nat.compare_gt_iff. lia.
Qed.

Lemma compare_strftime_date a b :
  Timestamp.year a < 100 * 100 → Timestamp.month a < 100 → Timestamp.day a < 100 →
  Timestamp.year b < 100 * 100 → Timestamp.month b < 100 → Timestamp.day b < 100 →
  String.compare (Timestamp.strftime_date a) (Timestamp.strftime_date b) = date_compare a b.
Proof.
  intros Hya Hma Hda Hyb Hmb Hdb. unfold Timestamp.strftime_date, date_compare.
  rewrite !zero_pad_4_split by done. rewrite !string_app_assoc.
  assert (Hqa : Timestamp.year a / 100 < 100) by (apply Nat.Div0.div_lt_upper_bound; lia).
  assert (Hqb : Timestamp.year b / 100 < 100) by (apply Nat.Div0.div_lt_upper_bound; lia).
  pose proof (Nat.mod_upper_bound (Timestamp.year a) 100 ltac:(done)) as Hra.
  pose proof (Nat.mod_upper_bound (Timestamp.year b) 100 ltac:(done)) as Hrb.
  rewrite (compare_hundreds (Timestamp.year a) (Timestamp.year b)).
  rewrite compare_app, compare_zero_pad_2 by (by rewrite ?length_zero_pad_2).
  destruct (Timestamp.year a / 100 ?= Timestamp.year b / 100); [|done..].
  rewrite compare_app, compare_zero_pad_2 by (by rewrite ?length_zero_pad_2).
  destruct (Timestamp.year a `mod` 100 ?= Timestamp.year b `mod` 100); [|done..].
  rewrite (compare_app "-" "-") by done. cbn [String.compare Ascii.compare].
  change (String.compare "-" "-") with Eq. cbv iota.
  rewrite compare_app, compare_zero_pad_2 by (by rewrite ?length_zero_pad_2).
  destruct (Timestamp.month a ?= Timestamp.month b); [|done..].
  rewrite (compare_app "-" "-") by done.
  change (String.compare "-" "-") with Eq. cbv iota.
  by apply compare_zero_pad_2.
Qed.

Lemma days_in_month_le y m : Timestamp.days_in_month y m ≤ 31.
Proof. unfold Timestamp.days_in_month. repeat case_match; lia. Qed.




Lemma string_le_compare (s1 s2 : string) : String.le s1 s2 ↔ String.compare s1 s2 ≠ Gt.
Proof.
  unfold String.le, String.leb. by destruct (String.compare s1 s2).
Qed.

Lemma strftime_date_le a b :
  fits_iso_widths a → fits_iso_widths b →
  (String.le (Timestamp.strftime_date a) (Timestamp.strftime_date b) ↔ date_compare a b ≠ Gt).
Proof.
  intros (?&?&?) (?&?&?). by rewrite string_le_compare, compare_strftime_date.
Qed.










(** ** The bedtime's date *)

(** X22. The calendar date of a bedtime is the date of a valid day: the
    bedtime's own day, or the day whose day number is one less when the hour
    is below the cutoff, with the clock time as it was. A cutoff of zero or
    less moves no bedtime, and a cutoff of 24 or more moves every one. *)
Theorem bedtime_date_is_the_day_or_the_day_before (dt : Timestamp) (noon_cutoff : Z) :
  Timestamp.valid dt → (1 < Timestamp.toordinal dt)%Z →
  ∃ t, calendar_date_for_inbed dt noon_cutoff = Timestamp.strftime_date t
       ∧ Timestamp.valid t
       ∧ Timestamp.toordinal t =
         (Timestamp.toordinal dt
          - (if (Z.of_nat (Timestamp.hour dt) <? noon_cutoff)%Z then 1 else 0))%Z
       ∧ fmt_time t = fmt_time dt
       ∧ ((noon_cutoff ≤ 0)%Z → t = dt)
       ∧ ((24 ≤ noon_cutoff)%Z → t = Timestamp.minus_one_day dt).
Proof.
  intros Hvalid Hord. unfold calendar_date_for_inbed.
  destruct (Z.ltb_spec (Z.of_nat (Timestamp.hour dt)) noon_cutoff) as [Hlt|Hge].
  - exists (Timestamp.minus_one_day dt). split; [done|].
    split; [by apply minus_one_day_valid|]. split; [by apply toordinal_minus_one_day|].
    split; [|split; [lia|done]].
    unfold fmt_time, Timestamp.strftime_time, Timestamp.minus_one_day.
    by destruct (1 <? Timestamp.day dt)%nat, (1 <? Timestamp.month dt)%nat.
  - exists dt. split; [done|]. split; [done|]. split; [lia|]. split; [done|].
    split; [done|]. destruct Hvalid as (_ & _ & _ & Hh & _). lia.
Qed.

Lemma bedtime_date_witness :
  ∃ t, calendar_date_for_inbed (Timestamp.make 2024 3 1 0 45 0) 12 = Timestamp.strftime_date t
       ∧ Timestamp.toordinal t = (Timestamp.toordinal (Timestamp.make 2024 3 1 0 45 0) - 1)%Z.
Proof.
  destruct (bedtime_date_is_the_day_or_the_day_before (Timestamp.make 2024 3 1 0 45 0) 12)
    as (t & Hdate & _ & Hord & _).
  - unfold Timestamp.valid. cbn. lia.
  - vm_compute. reflexivity.
  - exists t. split; [exact Hdate|exact Hord].
Defined.

(** ** The segment form *)

Lemma isoformat_strftime d :
  isoformat d = Timestamp.strftime_date (Timestamp.make (date_year d) (date_month d) (date_day d) 0 0 0).
Proof. done. Qed.

Lemma date_gt_compare a b :
  date_gt a b = false ↔
  date_compare (Timestamp.make (date_year a) (date_month a) (date_day a) 0 0 0)
               (Timestamp.make (date_year b) (date_month b) (date_day b) 0 0 0) ≠ Gt.
Proof.
  unfold date_gt, date_compare. cbn [Timestamp.year Timestamp.month Timestamp.day].
  destruct (date_year a ?= date_year b); [|done..].
  destruct (date_month a ?= date_month b); [|done..].
  destruct (Nat.ltb_spec (date_day b) (date_day a)) as [Hlt|Hge],
           (Nat.compare_spec (date_day a) (date_day b)); split; try done; lia.
Qed.

Lemma isoformat_nonempty d : isoformat d ≠ "".
Proof.
  unfold isoformat. intros Heq.
  assert (Hlen : String.length (Timestamp.zero_pad 4 (date_year d) +:+ "-"
                   +:+ Timestamp.zero_pad 2 (date_month d) +:+ "-"
                   +:+ Timestamp.zero_pad 2 (date_day d)) = 0) by (by rewrite Heq).
  revert Hlen. generalize (Timestamp.zero_pad 4 (date_year d)).
  intros [|c s]; [|done]. generalize (Timestamp.zero_pad 2 (date_month d) +:+ "-"
                   +:+ Timestamp.zero_pad 2 (date_day d)). done.
Qed.

Lemma valid_date_fits d : valid_date d → fits_iso_widths (at_midnight d).
Proof.
  intros (Hy & Hm & Hd). pose proof (days_in_month_le (date_year d) (date_month d)).
  unfold fits_iso_widths, at_midnight. cbn [Timestamp.year Timestamp.month Timestamp.day]. lia.
Qed.

(** X23. The form adds a segment only when the name is not blank, both dates
    are chosen and the start is not after the end; the segment added has the
    stripped name and both bounds as non-empty date strings, the start not
    above the end in the order the rows are filtered by. In every other case
    the session keeps its segments. *)
Theorem form_adds_only_ordered_segments (strip : string → string) (seg_id : string)
    (seg_start seg_end : option Date) (session : list Segment) :
  match add_segment_form strip seg_id seg_start seg_end session with
  | (AddedSegment name, session') =>
      ∃ s e, seg_start = Some s ∧ seg_end = Some e
             ∧ name = strip seg_id ∧ name ≠ ""
             ∧ session' = session ++ [ {| id := name; start_date := Some (isoformat s);
                                          end_date := Some (isoformat e) |} ]
             ∧ isoformat s ≠ "" ∧ isoformat e ≠ ""
             ∧ (valid_date s → valid_date e → String.le (isoformat s) (isoformat e))
  | (_, session') => session' = session
  end.
Proof.
  unfold add_segment_form. case_bool_decide as Hname; [done|].
  destruct seg_start as [s|], seg_end as [e|]; try done.
  destruct (date_gt s e) eqn:Hgt; [done|].
  exists s, e. repeat split; try done; try apply isoformat_nonempty.
  intros Hs He. rewrite !isoformat_strftime.
  apply strftime_date_le; [by apply valid_date_fits..|]. by apply date_gt_compare.
Qed.



(** ** The labels of the columns *)

Lemma string_app_inv_tail (x y suffix : string) : x +:+ suffix = y +:+ suffix → x = y.
Proof.
  intros Heq. apply (f_equal String.list_ascii_of_string) in Heq.
  rewrite !list_ascii_of_string_app in Heq. apply app_inv_tail in Heq.
  apply (f_equal String.string_of_list_ascii) in Heq.
  by rewrite !String.string_of_list_ascii_of_string in Heq.
Qed.

Lemma string_app_last (x y s1 s2 : string) :
  x +:+ s1 = y +:+ s2 →
  String.list_ascii_of_string s1 ≠ [] → String.list_ascii_of_string s2 ≠ [] →
  last (String.list_ascii_of_string s1) = last (String.list_ascii_of_string s2).
Proof.
  intros Heq H1 H2. apply (f_equal String.list_ascii_of_string) in Heq.
  rewrite !list_ascii_of_string_app in Heq. apply (f_equal last) in Heq.
  rewrite !last_app in Heq.
  destruct (last (String.list_ascii_of_string s1)) eqn:E1;
    [|by apply last_None in E1].
  destruct (last (String.list_ascii_of_string s2)) eqn:E2;
    [|by apply last_None in E2].
  done.
Qed.

Lemma date_header_disjoint i j label :
  label ∈ date_header i → label ∈ date_header j → i = j.
Proof.
  unfold date_header. intros Hi Hj.
  repeat (apply elem_of_cons in Hi as [Hi|Hi]); [| | |by apply elem_of_nil in Hi];
    (repeat (apply elem_of_cons in Hj as [Hj|Hj]); [| | |by apply elem_of_nil in Hj]);
    rewrite Hi in Hj; apply (inj (String.app "D")) in Hj;
    first [ apply string_app_inv_tail in Hj; by apply (inj pretty) in Hj
          | apply string_app_last in Hj; [discriminate Hj|discriminate..] ].
Qed.

Lemma NoDup_date_header i : NoDup (date_header i).
Proof.
  unfold date_header. repeat (apply NoDup_cons; split); [| |apply not_elem_of_nil|constructor].
  - intros Hin. repeat (apply elem_of_cons in Hin as [Hin|Hin]); [| |by apply elem_of_nil in Hin];
      apply (inj (String.app "D")), string_app_last in Hin; discriminate.
  - intros Hin. apply list_elem_of_singleton in Hin.
    apply (inj (String.app "D")), string_app_last in Hin; discriminate.
Qed.

Lemma NoDup_header_of n : NoDup (header_of n).
Proof.
  unfold header_of. apply NoDup_cons. split.
  - intros Hin%list_elem_of_In. apply in_flat_map in Hin as (i & _ & Hi%list_elem_of_In).
    unfold date_header in Hi.
    repeat (apply elem_of_cons in Hi as [Hi|Hi]); [| | |by apply elem_of_nil in Hi];
      discriminate Hi.
  - generalize 1. induction n as [|n IH]; intros start; [constructor|].
    change (NoDup (date_header start ++ flat_map date_header (seq (S start) n))).
    apply NoDup_app. split; [apply (NoDup_date_header start)|]. split; [|apply IH].
    intros label Hstart Hrest%list_elem_of_In.
    apply in_flat_map in Hrest as (j & Hj%in_seq & Hlabel%list_elem_of_In).
    pose proof (date_header_disjoint start j label Hstart Hlabel). lia.
Qed.

(** X25. The labels of a table are pairwise distinct: no two columns of an
    assembled table have the same name, and [ID] is the first. *)
Theorem column_labels_are_distinct (cal : Calendar) (seg : Segment) (others : list Segment) :
  ∃ table, assemble (seg :: others) cal = Ok table
           ∧ NoDup (columns table)
           ∧ head (columns table) = Some "ID".
Proof.
  eexists. split; [apply assemble_cons_table|]. cbn [columns].
  split; [apply NoDup_header_of|done].
Qed.

(** ** What the conversion reads of the diary *)

Lemma dropna_cells (df df' : list SourceRow) :
  (λ r, (Out_Bed r, In_Bed r)) <$> df = (λ r, (Out_Bed r, In_Bed r)) <$> df' →
  (λ r, (Out_Bed r, In_Bed r)) <$> dropna df = (λ r, (Out_Bed r, In_Bed r)) <$> dropna df'.
Proof.
  revert df'. induction df as [|r df IH]; intros [|r' df'] Heq; try done.
  rewrite !fmap_cons in Heq. injection Heq as Hout Hin Heq.
  unfold dropna. rewrite !filter_cons, <- Hout, <- Hin.
  case_decide; [rewrite !fmap_cons, Hout, Hin; f_equal|]; by apply IH.
Qed.

Lemma placements_cells to_datetime fmt noon (df df' : list SourceRow) :
  (λ r, (Out_Bed r, In_Bed r)) <$> df = (λ r, (Out_Bed r, In_Bed r)) <$> df' →
  placements noon (add_datetime_columns to_datetime fmt df) =
  placements noon (add_datetime_columns to_datetime fmt df').
Proof.
  revert df'. induction df as [|r df IH]; intros [|r' df'] Heq; try done.
  rewrite !fmap_cons in Heq. injection Heq as Hout Hin Heq.
  unfold placements, add_datetime_columns. cbn [map flat_map]. f_equal.
  - unfold placements_of_row. cbn [out_bed_dt in_bed_dt]. by rewrite Hout, Hin.
  - by apply IH.
Qed.

(** X26. The conversion reads only the two timestamp columns of the diary:
    two diaries whose rows have the same wakeup and bedtime cells, in the same
    order, give the same result, whatever their subject column holds. *)
Theorem only_the_timestamp_columns_matter (to_datetime : string → string → option Timestamp)
    (df df' : list SourceRow) (segments : list Segment) (noon_cutoff : Z)
    (datetime_fmt : string) :
  (λ r, (Out_Bed r, In_Bed r)) <$> df = (λ r, (Out_Bed r, In_Bed r)) <$> df' →
  convert_sleeplog_in_memory to_datetime df segments noon_cutoff datetime_fmt =
  convert_sleeplog_in_memory to_datetime df' segments noon_cutoff datetime_fmt.
Proof.
  intros Hcells%dropna_cells. unfold convert_sleeplog_in_memory.
  assert (Hempty : dropna df = [] ↔ dropna df' = []).
  { split; intros Hnil; rewrite Hnil in Hcells.
    - symmetry in Hcells. by apply fmap_nil_inv in Hcells.
    - by apply fmap_nil_inv in Hcells. }
  repeat case_bool_decide; try tauto. f_equal.
  unfold build_calendar, build_calendar_run.
  rewrite !build_calendar_from_placements. f_equal. f_equal.
  by apply placements_cells.
Qed.

Lemma only_the_timestamp_columns_matter_witness :
  convert_sleeplog_in_memory Strptime.to_datetime
    [mkSourceRow (Some "AK/01") (Some "01/02/25 07:15") None] three_segments 12 "%m/%d/%y %H:%M"
  = convert_sleeplog_in_memory Strptime.to_datetime
      [mkSourceRow None (Some "01/02/25 07:15") None] three_segments 12 "%m/%d/%y %H:%M".
Proof.
  apply (only_the_timestamp_columns_matter Strptime.to_datetime
           [mkSourceRow (Some "AK/01") (Some "01/02/25 07:15") None]
           [mkSourceRow None (Some "01/02/25 07:15") None]).
  reflexivity.
Defined.

(** ** The size of the table *)

Lemma length_le_sum_list (l : list nat) : Forall (λ n, 1 ≤ n) l → length l ≤ sum_list l.
Proof. induction 1; simpl; lia. Qed.

Lemma size_le_fields_set (cal : Calendar) : entries_well_formed cal → size cal ≤ fields_set cal.
Proof.
  intros Hwf. unfold fields_set.
  rewrite <- (length_map_to_list cal), <- (length_fmap (λ de, size de.2)).
  apply length_le_sum_list, Forall_forall.
  intros n ([d entry] & -> & Hde%elem_of_map_to_list)%list_elem_of_fmap.
  destruct (Hwf d entry Hde) as [Hne _]. cbn [snd].
  apply map_size_non_empty_iff in Hne. lia.
Qed.

Lemma dates_in_le_size cal s : dates_in cal s ≤ size cal.
Proof.
  unfold dates_in. rewrite length_segment_dates, <- (size_dom cal).
  apply subseteq_size. intros d [_ Hd]%elem_of_filter. done.
Qed.

(** X27. The calendar has at most as many dates as the diary has timestamps,
    and a table is at most one column and three per timestamp wide. *)
Theorem table_width_bound (df : list Row) (noon_cutoff : Z) (seg : Segment)
    (others : list Segment) :
  size (build_calendar df noon_cutoff) ≤ sum_list (timestamps_present <$> df)
  ∧ ∃ table, assemble (seg :: others) (build_calendar df noon_cutoff) = Ok table
             ∧ length (columns table) ≤ 1 + 3 * sum_list (timestamps_present <$> df)
             ∧ Forall (λ row, length row = length (columns table)) (data table).
Proof.
  assert (Hsize : size (build_calendar df noon_cutoff) ≤ sum_list (timestamps_present <$> df)).
  { pose proof (size_le_fields_set _ (build_calendar_well_formed df noon_cutoff)).
    unfold build_calendar, build_calendar_run in *.
    rewrite build_calendar_from_placements in *.
    pose proof (place_all_count {| calendar := ∅; log := [] |}
                  (placements noon_cutoff df)) as Hcount.
    rewrite length_placements in Hcount. cbn [calendar log length] in Hcount.
    unfold fields_set at 2 in Hcount. rewrite map_to_list_empty in Hcount.
    cbn in Hcount. lia. }
  split; [done|]. eexists. split; [apply assemble_cons_table|]. cbn [columns data].
  rewrite length_header_of.
  set (most := max_list (dates_in (build_calendar df noon_cutoff) <$> seg :: others)).
  assert (Hmost : most ≤ size (build_calendar df noon_cutoff)).
  { assert (dates_in (build_calendar df noon_cutoff) <$> seg :: others ≠ []) as Hne
      by (rewrite fmap_cons; discriminate).
    apply max_list_elem_of in Hne as Hin.
    fold most in Hin. apply list_elem_of_fmap in Hin as (s & -> & _).
    apply dates_in_le_size. }
  split; [lia|].
  apply Forall_forall. intros row (s & -> & Hs)%list_elem_of_fmap.
  rewrite length_pad. unfold row_values. rewrite length_values_of.
  fold (dates_in (build_calendar df noon_cutoff) s).
  pose proof (dates_in_le_max (build_calendar df noon_cutoff) s (seg :: others) Hs).
  fold most in H. lia.
Qed.
